(** * forex_bot.py: a single-symbol trading loop

    A shallow embedding of [src/forex_bot.py].  The script is one polling
    loop over the MetaTrader5 terminal: a daily reset of the loss
    accumulator, a loss-limit gate, four fetches, two pandas indicators
    (SMA and RSI), risk-based lot sizing, a BUY/SELL dispatch and a
    recomputation of the realised daily loss from the deal history.

    Numbers.  Python and numpy floats are modelled by exact rationals
    ([Q], compared with [==]); rounding error is not modelled.  The pandas
    columns additionally carry the IEEE special values that the indicator
    arithmetic can produce (a signed zero, the two infinities and NaN),
    because numpy division never raises.  Plain Python float division
    raises [ZeroDivisionError], which is an uncaught exception of the
    script. *)

From Stdlib Require Import String QArith Qround ZArith List Bool Lia Lqa.
From Stdlib Require Import Permutation.
Import ListNotations.
Open Scope Q_scope.

(** ** Rational comparisons as booleans *)

Definition Qlt_bool (x y : Q) : bool := negb (Qle_bool y x).

(** ** numpy float64 values, as far as the indicators need them *)

Module Float.

(** [Fin q] is a finite value; [Fin q] with [q == 0] is the positive
    zero and [NegZero] the negative one. *)
Inductive fval : Type :=
| Fin (q : Q)
| NegZero
| PInf
| NInf
| NaN.

Definition is_nan (x : fval) : bool :=
  match x with NaN => true | _ => false end.

Definition is_zero (x : fval) : bool :=
  match x with
  | Fin q => Qeq_bool q 0
  | NegZero => true
  | _ => false
  end.

(** Sign bit of a value that is not NaN. *)
Definition negative (x : fval) : bool :=
  match x with
  | Fin q => Qlt_bool q 0
  | NegZero => true
  | PInf => false
  | NInf => true
  | NaN => false
  end.

Definition signed_zero (neg : bool) : fval := if neg then NegZero else Fin 0.
Definition signed_inf (neg : bool) : fval := if neg then NInf else PInf.

Definition fneg (x : fval) : fval :=
  match x with
  | Fin q => if Qeq_bool q 0 then NegZero else Fin (- q)
  | NegZero => Fin 0
  | PInf => NInf
  | NInf => PInf
  | NaN => NaN
  end.

(** Addition; an exact zero sum of finite values is the positive zero
    (round to nearest), except (-0) + (-0). *)
Definition fadd (x y : fval) : fval :=
  match x, y with
  | NaN, _ | _, NaN => NaN
  | PInf, NInf | NInf, PInf => NaN
  | PInf, _ | _, PInf => PInf
  | NInf, _ | _, NInf => NInf
  | NegZero, NegZero => NegZero
  | NegZero, Fin b => Fin b
  | Fin a, NegZero => Fin a
  | Fin a, Fin b => Fin (a + b)
  end.

Definition fsub (x y : fval) : fval := fadd x (fneg y).

(** numpy true division: no exception, x/0 is a signed infinity and
    0/0 is NaN. *)
Definition fdiv (x y : fval) : fval :=
  match x, y with
  | NaN, _ | _, NaN => NaN
  | (PInf | NInf), (PInf | NInf) => NaN
  | (PInf | NInf), _ => signed_inf (xorb (negative x) (negative y))
  | _, (PInf | NInf) => signed_zero (xorb (negative x) (negative y))
  | _, _ =>
      if is_zero y then
        if is_zero x then NaN
        else signed_inf (xorb (negative x) (negative y))
      else if is_zero x then signed_zero (xorb (negative x) (negative y))
      else match x, y with
           | Fin a, Fin b => Fin (a / b)
           | _, _ => NaN
           end
  end.

(** Comparisons: anything compared with NaN is false; the two zeros are
    equal. *)
Definition flt (x y : fval) : bool :=
  match x, y with
  | NaN, _ | _, NaN => false
  | PInf, _ => false
  | _, NInf => false
  | NInf, _ => true
  | _, PInf => true
  | Fin a, Fin b => Qlt_bool a b
  | Fin a, NegZero => Qlt_bool a 0
  | NegZero, Fin b => Qlt_bool 0 b
  | NegZero, NegZero => false
  end.

Definition fgt (x y : fval) : bool := flt y x.

(** [x <= y]: false with a NaN, otherwise the negation of [y < x]. *)
Definition fle (x y : fval) : bool :=
  negb (is_nan x || is_nan y) && negb (flt y x).

End Float.
Import Float.

(** ** pandas Series operations used by the script *)

Module Pandas.

Definition Series := list fval.

(** [s.diff()]: first entry NaN, then [s[i] - s[i-1]]. *)
Fixpoint diff_from (prev : fval) (s : Series) : Series :=
  match s with
  | [] => []
  | x :: s' => fsub x prev :: diff_from x s'
  end.

Definition diff (s : Series) : Series :=
  match s with
  | [] => []
  | x :: s' => NaN :: diff_from x s'
  end.

(** [s.where(cond, other)]: keep the entries that satisfy [cond],
    replace the others. *)
Definition where_ (cond : fval -> bool) (other : fval) (s : Series) : Series :=
  map (fun x => if cond x then x else other) s.

Definition fsum (w : list fval) : fval := fold_left fadd w (Fin 0).

(** The window of [n] entries ending at index [i] (inclusive). *)
Definition window (n : nat) (s : Series) (i : nat) : list fval :=
  firstn n (skipn (S i - n) s).

(** [s.rolling(n).mean()] at index [i]: NaN until [n] observations
    exist, NaN when the window holds a NaN. *)
Definition rolling_mean_at (n : nat) (s : Series) (i : nat) : fval :=
  if Nat.ltb (S i) n then NaN
  else fdiv (fsum (window n s i)) (Fin (inject_Z (Z.of_nat n))).

Definition rolling_mean (n : nat) (s : Series) : Series :=
  map (rolling_mean_at n s) (seq 0 (length s)).

Fixpoint zip_with (f : fval -> fval -> fval) (a b : Series) : Series :=
  match a, b with
  | x :: a', y :: b' => f x y :: zip_with f a' b'
  | _, _ => []
  end.

(** [s.iloc[-1]]; [None] stands for the IndexError on an empty frame. *)
Fixpoint iloc_last (s : Series) : option fval :=
  match s with
  | [] => None
  | [x] => Some x
  | _ :: s' => iloc_last s'
  end.

End Pandas.
Import Pandas.

(** ** Indicators (lines 67-82) *)

Definition sma_column (sma_period : nat) (close : Series) : Series :=
  rolling_mean sma_period close.

Definition rsi_of (gain loss : fval) : fval :=
  let rs := fdiv gain loss in
  fsub (Fin 100) (fdiv (Fin 100) (fadd (Fin 1) rs)).

Definition gain_column (rsi_period : nat) (close : Series) : Series :=
  rolling_mean rsi_period (where_ (fun d => fgt d (Fin 0)) (Fin 0) (diff close)).

Definition loss_column (rsi_period : nat) (close : Series) : Series :=
  map fneg
      (rolling_mean rsi_period (where_ (fun d => flt d (Fin 0)) (Fin 0) (diff close))).

Definition rsi_column (rsi_period : nat) (close : Series) : Series :=
  zip_with rsi_of (gain_column rsi_period close) (loss_column rsi_period close).

Definition closes_of (rates : list Q) : Series := map Fin rates.

(** ** Configuration, session state and broker data *)

Record Config : Type := {
  symbol : string;
  sl_pips : Q;
  tp_pips : Q;
  sma_period : nat;
  rsi_period : nat;
  risk_percent : Q;
  magic_number : Z;
  bars : nat;
  loop_interval_minutes : Z;
  daily_max_loss : Q;
  daily_loss_reset_hour : Z
}.

(** The constants of lines 7-19. *)
Definition config : Config := {|
  symbol := "EURUSD";
  sl_pips := 5;
  tp_pips := 10;
  sma_period := 50;
  rsi_period := 14;
  risk_percent := 1;
  magic_number := 123456;
  bars := 100;
  loop_interval_minutes := 5;
  daily_max_loss := 50;
  daily_loss_reset_hour := 0
|}.

(** Lines 22-23; calendar dates are day ordinals. *)
Record State : Type := {
  daily_realized_loss : Q;
  last_reset_date : Z
}.

(** MetaTrader5 constants. *)
Definition TRADE_ACTION_DEAL : Z := 1.
Definition ORDER_TYPE_BUY : Z := 0.
Definition ORDER_TYPE_SELL : Z := 1.
Definition ORDER_TIME_GTC : Z := 0.
Definition ORDER_FILLING_IOC : Z := 1.
Definition TRADE_RETCODE_DONE : Z := 10009.
Definition DEAL_TYPE_BUY : Z := 0.
Definition DEAL_TYPE_SELL : Z := 1.

Record SymbolInfo : Type := {
  point : Q;
  trade_tick_size : Q;
  trade_tick_value : Q
}.

Record Tick : Type := { bid : Q; ask : Q }.

Record Deal : Type := {
  deal_magic : Z;
  deal_type : Z;
  deal_profit : Q
}.

(** The request dictionary of [place_trade] (lines 111-124). *)
Record TradeRequest : Type := {
  req_action : Z;
  req_symbol : string;
  req_volume : Q;
  req_type : Z;
  req_price : Q;
  req_sl : Q;
  req_tp : Q;
  req_deviation : Z;
  req_magic : Z;
  req_comment : string;
  req_type_time : Z;
  req_type_filling : Z
}.

Record OrderSendResult : Type := { retcode : Z; order : Z }.

(** What the clock and the terminal answer during one pass of the loop
    body.  [date.today()] is read at line 43 and again at line 45. *)
Record World : Type := {
  now_hour : Z;
  today_at_check : Z;
  today_at_reset : Z;
  account_info : option Q;
  copy_rates_from_pos : option (list Q);
  symbol_info : option SymbolInfo;
  symbol_info_tick : option Tick;
  order_send : TradeRequest -> option OrderSendResult;
  history_deals_get : option (list Deal)
}.

Inductive Message : Type :=
| MsgDailyLossReset
| MsgMaxLossReached
| MsgFailedAccountInfo
| MsgFailedMarketData
| MsgFailedSymbolOrTick
| MsgTradePlaced (ticket : Z)
| MsgTradeFailed (code : Z)
| MsgNoTrade
| MsgCurrentDailyLoss (loss : Q).

(** Observable actions of the loop body, in program order. *)
Inductive Event : Type :=
| PrintLine (m : Message)
| Sleep (seconds : Z)
| CallAccountInfo
| CallCopyRates
| CallSymbolInfo
| CallSymbolInfoTick
| CallOrderSend (r : TradeRequest)
| CallHistoryDealsGet
| CallShutdown.

Inductive Exception : Type :=
| IndexError
| ZeroDivisionError
| AttributeError.

(** How one pass of the loop body ends: [continue] or falling off the
    end, [break], or an uncaught exception. *)
Inductive Outcome : Type :=
| Continue (s : State)
| Break (s : State)
| Raise (e : Exception).

(** ** Lot sizing (lines 94-100) *)

(** Python's [round]: to the nearest integer, ties to the even one. *)
Definition round_half_even (x : Q) : Z :=
  let f := Qfloor x in
  let r := x - inject_Z f in
  if Qlt_bool r (1 # 2) then f
  else if Qlt_bool (1 # 2) r then (f + 1)%Z
  else if Z.even f then f else (f + 1)%Z.

(** [round(x, 2)]. *)
Definition round2 (x : Q) : Q := inject_Z (round_half_even (x * 100)) / 100.

Definition pip_value (info : SymbolInfo) : option Q :=
  if Qeq_bool (trade_tick_size info) 0 then None
  else Some (trade_tick_value info / trade_tick_size info).

Definition lot_size (risk_percent sl_pips balance pip_value_per_lot : Q) : option Q :=
  let risk_money := balance * (risk_percent / 100) in
  let d := sl_pips * pip_value_per_lot in
  if Qeq_bool d 0 then None
  else
    let lot := round2 (risk_money / d) in
    Some (if Qlt_bool lot (1 # 100) then 1 # 100 else lot).

(** ** Entry conditions (lines 103-107) *)

Definition should_buy (close_price sma rsi : fval) : bool :=
  fgt close_price sma && flt rsi (Fin 30).

Definition should_sell (close_price sma rsi : fval) : bool :=
  flt close_price sma && fgt rsi (Fin 70).

(** ** Trade execution (lines 110-131) *)

Definition request (cfg : Config) (lot : Q) (order_type : Z) (price sl tp : Q)
  : TradeRequest := {|
  req_action := TRADE_ACTION_DEAL;
  req_symbol := symbol cfg;
  req_volume := lot;
  req_type := order_type;
  req_price := price;
  req_sl := sl;
  req_tp := tp;
  req_deviation := 5;
  req_magic := magic_number cfg;
  req_comment := "Risk-Managed Algo Trade";
  req_type_time := ORDER_TIME_GTC;
  req_type_filling := ORDER_FILLING_IOC
|}.

(** [None] is the AttributeError of [result.retcode] on a [None] result. *)
Definition place_trade (cfg : Config) (w : World) (lot : Q)
           (order_type : Z) (price sl tp : Q) : list Event * option OrderSendResult :=
  let r := request cfg lot order_type price sl tp in
  match order_send w r with
  | None => ([CallOrderSend r], None)
  | Some result =>
      ([CallOrderSend r;
        PrintLine (if Z.eqb (retcode result) TRADE_RETCODE_DONE
               then MsgTradePlaced (order result)
               else MsgTradeFailed (retcode result))],
       Some result)
  end.

(** Lines 134-147. *)
Definition check_and_place_order (cfg : Config) (w : World) (lot : Q)
           (close_price sma rsi : fval) (info : SymbolInfo) (tick : Tick)
  : list Event * bool :=
  if should_buy close_price sma rsi then
    let price := ask tick in
    let sl := price - sl_pips cfg * 10 * point info in
    let tp := price + tp_pips cfg * 10 * point info in
    let '(ev, res) := place_trade cfg w lot ORDER_TYPE_BUY price sl tp in
    (ev, match res with Some _ => true | None => false end)
  else if should_sell close_price sma rsi then
    let price := bid tick in
    let sl := price + sl_pips cfg * 10 * point info in
    let tp := price - tp_pips cfg * 10 * point info in
    let '(ev, res) := place_trade cfg w lot ORDER_TYPE_SELL price sl tp in
    (ev, match res with Some _ => true | None => false end)
  else ([PrintLine MsgNoTrade], true).

(** ** Daily loss from the deal history (lines 153-157) *)

(** The condition of line 156, with Python's precedence:
    [(magic == magic_number and type == SELL) or type == BUY]. *)
Definition deal_counts (cfg : Config) (deal : Deal) : bool :=
  (Z.eqb (deal_magic deal) (magic_number cfg)
   && Z.eqb (deal_type deal) DEAL_TYPE_SELL)
  || Z.eqb (deal_type deal) DEAL_TYPE_BUY.

Definition loss_of (deal : Deal) : Q :=
  if Qlt_bool (deal_profit deal) 0 then - deal_profit deal else 0.

Definition add_deal (cfg : Config) (acc : Q) (deal : Deal) : Q :=
  if deal_counts cfg deal then acc + loss_of deal else acc.

Definition recompute_daily_loss (cfg : Config) (closed_orders : option (list Deal)) : Q :=
  match closed_orders with
  | None => 0
  | Some [] => 0
  | Some deals => fold_left (add_deal cfg) deals 0
  end.

(** ** The loop body (lines 40-162) *)

(** Lines 43-46. *)
Definition reset_fires (cfg : Config) (s : State) (w : World) : bool :=
  negb (Z.eqb (today_at_check w) (last_reset_date s))
  && Z.leb (daily_loss_reset_hour cfg) (now_hour w).

Definition reset_check (cfg : Config) (s : State) (w : World) : State * list Event :=
  if reset_fires cfg s w then
    ({| daily_realized_loss := 0; last_reset_date := today_at_reset w |},
     [PrintLine MsgDailyLossReset])
  else (s, []).

(** Line 49. *)
Definition max_loss_reached (cfg : Config) (s : State) : bool :=
  Qle_bool (daily_max_loss cfg) (daily_realized_loss s).

Definition sleep_event (cfg : Config) : Event :=
  Sleep (loop_interval_minutes cfg * 60).

(** Lines 149-162. *)
Definition update_daily_loss (cfg : Config) (s : State) (w : World)
  : State * list Event :=
  let loss := recompute_daily_loss cfg (history_deals_get w) in
  ({| daily_realized_loss := loss; last_reset_date := last_reset_date s |},
   [CallHistoryDealsGet; PrintLine (MsgCurrentDailyLoss (round2 loss)); sleep_event cfg]).

(** Lines 54-162, entered once the loss-limit gate has been passed. *)
Definition trade_step (cfg : Config) (s : State) (w : World) : Outcome * list Event :=
  match account_info w with
  | None => (Break s, [CallAccountInfo; PrintLine MsgFailedAccountInfo])
  | Some balance =>
  match copy_rates_from_pos w with
  | None => (Break s, [CallAccountInfo; CallCopyRates; PrintLine MsgFailedMarketData])
  | Some rates =>
  let close := closes_of rates in
  match iloc_last close,
        iloc_last (sma_column (sma_period cfg) close),
        iloc_last (rsi_column (rsi_period cfg) close) with
  | Some close_price, Some sma, Some rsi =>
  let fetched := [CallAccountInfo; CallCopyRates; CallSymbolInfo; CallSymbolInfoTick] in
  match symbol_info w, symbol_info_tick w with
  | Some info, Some tick =>
  match pip_value info with
  | None => (Raise ZeroDivisionError, fetched)
  | Some pip_value_per_lot =>
  match lot_size (risk_percent cfg) (sl_pips cfg) balance pip_value_per_lot with
  | None => (Raise ZeroDivisionError, fetched)
  | Some lot =>
  let '(ev, ok) := check_and_place_order cfg w lot close_price sma rsi info tick in
  if ok then
    let '(s', ev') := update_daily_loss cfg s w in
    (Continue s', fetched ++ ev ++ ev')
  else (Raise AttributeError, fetched ++ ev)
  end
  end
  | _, _ => (Break s, fetched ++ [PrintLine MsgFailedSymbolOrTick])
  end
  | _, _, _ => (Raise IndexError, [CallAccountInfo; CallCopyRates])
  end
  end
  end.

Definition iteration (cfg : Config) (s : State) (w : World) : Outcome * list Event :=
  let '(s1, ev1) := reset_check cfg s w in
  if max_loss_reached cfg s1 then
    (Continue s1, ev1 ++ [PrintLine MsgMaxLossReached; sleep_event cfg])
  else
    let '(o, ev2) := trade_step cfg s1 w in
    (o, ev1 ++ ev2).

(** The [while True] loop over the successive answers of the world; it
    returns the events of every pass that ran and how the loop stood
    when the answers were used up. *)
Fixpoint run (cfg : Config) (s : State) (ws : list World)
  : list (World * list Event) * Outcome :=
  match ws with
  | [] => ([], Continue s)
  | w :: ws' =>
      let '(o, ev) := iteration cfg s w in
      match o with
      | Continue s' =>
          let '(tr, o') := run cfg s' ws' in ((w, ev) :: tr, o')
      | _ => ([(w, ev)], o)
      end
  end.

(** The events of the whole run; [mt5.shutdown()] (line 165) is reached
    only when the loop was left by [break]. *)
Definition script (cfg : Config) (s : State) (ws : list World) : list Event :=
  let '(tr, o) := run cfg s ws in
  concat (map snd tr) ++
  match o with Break _ => [CallShutdown] | _ => [] end.

Definition is_order_send (e : Event) : bool :=
  match e with CallOrderSend _ => true | _ => false end.

Definition is_reset_message (e : Event) : bool :=
  match e with PrintLine MsgDailyLossReset => true | _ => false end.

(** The calendar days (as read by the reset check) of the passes in which
    the reset branch ran. *)
Definition reset_days (cfg : Config) (s : State) (ws : list World) : list Z :=
  map (fun p => today_at_check (fst p))
      (filter (fun p => existsb is_reset_message (snd p)) (fst (run cfg s ws))).

(** The clock does not run backwards: starting from day [d], the dates
    read by successive passes never decrease. *)
Fixpoint chronological (d : Z) (ws : list World) : Prop :=
  match ws with
  | [] => True
  | w :: ws' =>
      (d <= today_at_check w)%Z /\ (today_at_check w <= today_at_reset w)%Z /\
      chronological (today_at_reset w) ws'
  end.

(** ** Auxiliary notions used in the statements *)

(** The last step of the sizing, as a function of the unrounded ratio. *)
Definition clamp_lot (q : Q) : Q :=
  if Qlt_bool (round2 q) (1 # 100) then 1 # 100 else round2 q.

(** Shapes of the entries of the gain and loss series. *)
Definition fin_nonneg (x : fval) : Prop := exists q, x = Fin q /\ 0 <= q.
Definition fin_nonpos (x : fval) : Prop := exists q, x = Fin q /\ q <= 0.
Definition fin_or_nan (x : fval) : Prop := x = NaN \/ exists q, x = Fin q.

(** [0 <= r <= 100] as numpy evaluates it. *)
Definition in_0_100 (r : fval) : bool := fle (Fin 0) r && fle r (Fin 100).

(** The daily loss as the strategy-tag filter is described: only deals
    whose magic number is the strategy's contribute their loss. *)
Definition tagged_daily_loss (cfg : Config) (deals : list Deal) : Q :=
  fold_right
    (fun d acc =>
       (if Z.eqb (deal_magic d) (magic_number cfg) then loss_of d else 0) + acc)
    0 deals.

(** ** Program start and end (lines 22-36 and 165) *)

(** Lines 22-23. *)
Definition initial_state (today : Z) : State :=
  {| daily_realized_loss := 0; last_reset_date := today |}.

Inductive StartMessage : Type :=
| MsgInitializeFailed
| MsgSelectFailed
| MsgStarting.

(** Actions of the whole script; [Body] carries the actions of the loop
    and the [mt5.shutdown()] calls. *)
Inductive ProgramEvent : Type :=
| CallInitialize
| CallLastError
| CallSymbolSelect
| Announce (m : StartMessage)
| QuitProcess
| Body (e : Event).

(** The script from line 22 to line 165, given the answers of
    [mt5.initialize()] and [mt5.symbol_select(symbol, True)], the date
    read at line 23 and the answers of the world during the loop. *)
Definition program (initialize symbol_select : bool) (cfg : Config)
           (today : Z) (ws : list World) : list ProgramEvent :=
  if negb initialize then
    [CallInitialize; CallLastError; Announce MsgInitializeFailed; QuitProcess]
  else if negb symbol_select then
    [CallInitialize; CallSymbolSelect; Announce MsgSelectFailed;
     Body CallShutdown; QuitProcess]
  else
    [CallInitialize; CallSymbolSelect; Announce MsgStarting]
    ++ map Body (script cfg (initial_state today) ws).

(** ** Further notions used in the statements *)

Definition is_sleep (e : Event) : bool :=
  match e with Sleep _ => true | _ => false end.

Definition is_history_call (e : Event) : bool :=
  match e with CallHistoryDealsGet => true | _ => false end.

(** Exact sum and the last [n] entries of a list of rationals. *)
Definition Qsum (l : list Q) : Q := fold_right Qplus 0 l.

Definition last_n {A} (n : nat) (l : list A) : list A :=
  skipn (length l - n) l.

(** What one deal adds to the accumulator at line 157. *)
Definition deal_contribution (cfg : Config) (deal : Deal) : Q :=
  if deal_counts cfg deal then loss_of deal else 0.

(** The reset condition of line 43 is false for this answer of the clock
    when the stored date is [d]. *)
Definition no_reset_at (cfg : Config) (d : Z) (w : World) : Prop :=
  today_at_check w = d \/ (now_hour w < daily_loss_reset_hour cfg)%Z.

(** ** Sample data *)

Module Sample.

(** 85 bars rising by 10, then 15 bars falling by 1: the last close is
    above the 50-bar mean while the last 14 moves are all losses. *)
Definition pullback_rates : list Q :=
  map (fun k => inject_Z (10 * Z.of_nat k)) (seq 1 85) ++
  map (fun k => inject_Z (850 - Z.of_nat k)) (seq 1 15).

Definition flat_rates : list Q := repeat (11 # 10) 100.

Definition eurusd : SymbolInfo :=
  {| point := 1 # 100000; trade_tick_size := 1 # 10; trade_tick_value := 1 |}.

Definition quote : Tick := {| bid := 11049 # 10000; ask := 11051 # 10000 |}.

Definition filled (r : TradeRequest) : option OrderSendResult :=
  Some {| retcode := TRADE_RETCODE_DONE; order := 42 |}.

Definition own_loss : Deal :=
  {| deal_magic := 123456; deal_type := DEAL_TYPE_SELL; deal_profit := - (75) |}.

Definition foreign_buy_loss : Deal :=
  {| deal_magic := 999; deal_type := DEAL_TYPE_BUY; deal_profit := - (10) |}.

Definition world (day hour : Z) (rates : option (list Q))
           (deals : option (list Deal)) : World :=
  {| now_hour := hour;
     today_at_check := day;
     today_at_reset := day;
     account_info := Some 10000;
     copy_rates_from_pos := rates;
     symbol_info := Some eurusd;
     symbol_info_tick := Some quote;
     order_send := filled;
     history_deals_get := deals |}.

Definition state (loss : Q) (day : Z) : State :=
  {| daily_realized_loss := loss; last_reset_date := day |}.

(** A symbol whose tick size comes back as zero. *)
Definition broken_symbol : SymbolInfo :=
  {| point := 1 # 100000; trade_tick_size := 0; trade_tick_value := 1 |}.

Definition broken_world : World :=
  {| now_hour := 10;
     today_at_check := 1;
     today_at_reset := 1;
     account_info := Some 10000;
     copy_rates_from_pos := Some flat_rates;
     symbol_info := Some broken_symbol;
     symbol_info_tick := Some quote;
     order_send := filled;
     history_deals_get := None |}.

(** The order that the pullback window produces with balance 10000. *)
Definition buy_request : TradeRequest :=
  request config (200 # 100) ORDER_TYPE_BUY (ask quote)
    (ask quote - 5 * 10 * point eurusd) (ask quote + 10 * 10 * point eurusd).

End Sample.

(** * Properties *)

(** ** Proof automation and boolean comparisons *)

Ltac break_match :=
  match goal with
  | |- context [match ?x with _ => _ end] => destruct x eqn:?
  | H : context [match ?x with _ => _ end] |- _ => destruct x eqn:?
  end.

Lemma Qlt_bool_iff x y : Qlt_bool x y = true <-> x < y.
Proof.
  unfold Qlt_bool. rewrite negb_true_iff.
  split; intro H.
  - apply Qnot_le_lt. intro L. apply Qle_bool_iff in L. congruence.
  - destruct (Qle_bool y x) eqn:E; auto.
    apply Qle_bool_iff in E. exfalso. apply (Qlt_not_le _ _ H E).
Qed.

Lemma Qlt_bool_false_iff x y : Qlt_bool x y = false <-> y <= x.
Proof.
  unfold Qlt_bool. rewrite negb_false_iff. apply Qle_bool_iff.
Qed.

(** ** Comparisons *)

Lemma flt_asym x y : flt x y = true -> flt y x = false.
Proof.
  destruct x as [a| | | |], y as [b| | | |]; simpl; try congruence;
    rewrite Qlt_bool_iff, Qlt_bool_false_iff; intro H;
    try (apply Qlt_le_weak; exact H); exfalso; revert H; apply Qlt_irrefl.
Qed.

Lemma flt_nan_l y : flt NaN y = false.
Proof. reflexivity. Qed.

Lemma flt_nan_r x : flt x NaN = false.
Proof. destruct x; reflexivity. Qed.

Lemma should_sell_not_buy close sma rsi :
  should_sell close sma rsi = true -> should_buy close sma rsi = false.
Proof.
  unfold should_sell, should_buy, fgt. intro H.
  apply andb_true_iff in H. destruct H as [H _].
  now rewrite (flt_asym _ _ H).
Qed.

(** C9: for one snapshot (close, SMA, RSI) the BUY condition and the SELL
    condition never hold together. *)
Theorem C9_buy_sell_exclusive (close_price sma rsi : fval) :
  should_buy close_price sma rsi && should_sell close_price sma rsi = false.
Proof.
  destruct (should_sell close_price sma rsi) eqn:S.
  - now rewrite (should_sell_not_buy _ _ _ S).
  - apply andb_false_r.
Qed.

(** ** Order construction *)

Lemma place_trade_head cfg w lot ty price sl tp :
  exists rest,
    fst (place_trade cfg w lot ty price sl tp)
    = CallOrderSend (request cfg lot ty price sl tp) :: rest.
Proof.
  unfold place_trade. destruct (order_send w _); simpl; eauto.
Qed.

(** C6: on a BUY signal the request carries entry = ask,
    stop-loss = entry - sl_pips*10*point, take-profit = entry +
    tp_pips*10*point; on a SELL signal entry = bid,
    stop-loss = entry + sl_pips*10*point, take-profit = entry -
    tp_pips*10*point. *)
Theorem C6_order_prices cfg w lot close_price sma rsi info tick :
  (should_buy close_price sma rsi = true ->
   exists r rest,
     fst (check_and_place_order cfg w lot close_price sma rsi info tick)
     = CallOrderSend r :: rest /\
     req_type r = ORDER_TYPE_BUY /\ req_volume r = lot /\
     req_price r = ask tick /\
     req_sl r = ask tick - sl_pips cfg * 10 * point info /\
     req_tp r = ask tick + tp_pips cfg * 10 * point info) /\
  (should_sell close_price sma rsi = true ->
   exists r rest,
     fst (check_and_place_order cfg w lot close_price sma rsi info tick)
     = CallOrderSend r :: rest /\
     req_type r = ORDER_TYPE_SELL /\ req_volume r = lot /\
     req_price r = bid tick /\
     req_sl r = bid tick + sl_pips cfg * 10 * point info /\
     req_tp r = bid tick - tp_pips cfg * 10 * point info).
Proof.
  unfold check_and_place_order. split; intro H.
  - rewrite H.
    destruct (place_trade_head cfg w lot ORDER_TYPE_BUY (ask tick)
                (ask tick - sl_pips cfg * 10 * point info)
                (ask tick + tp_pips cfg * 10 * point info)) as [rest E].
    destruct (place_trade _ _ _ _ _ _ _) as [ev res]. simpl in *.
    eexists; exists rest; split; [exact E|]. simpl. repeat split.
  - rewrite (should_sell_not_buy _ _ _ H), H.
    destruct (place_trade_head cfg w lot ORDER_TYPE_SELL (bid tick)
                (bid tick + sl_pips cfg * 10 * point info)
                (bid tick - tp_pips cfg * 10 * point info)) as [rest E].
    destruct (place_trade _ _ _ _ _ _ _) as [ev res]. simpl in *.
    eexists; exists rest; split; [exact E|]. simpl. repeat split.
Qed.

(** The scenario close = 1.1050, SMA = 1.1020, RSI = 25 of the
    specification is a BUY signal; a mirrored one is a SELL signal. *)
Lemma C6_order_prices_witness :
  (exists r rest,
     fst (check_and_place_order config (Sample.world 1 10 None None) 2
            (Fin (1105 # 1000)) (Fin (1102 # 1000)) (Fin 25)
            Sample.eurusd Sample.quote)
     = CallOrderSend r :: rest /\
     req_type r = ORDER_TYPE_BUY /\ req_volume r = 2 /\
     req_price r = ask Sample.quote /\
     req_sl r = ask Sample.quote - 5 * 10 * point Sample.eurusd /\
     req_tp r = ask Sample.quote + 10 * 10 * point Sample.eurusd) /\
  (exists r rest,
     fst (check_and_place_order config (Sample.world 1 10 None None) 2
            (Fin (1100 # 1000)) (Fin (1102 # 1000)) (Fin 75)
            Sample.eurusd Sample.quote)
     = CallOrderSend r :: rest /\
     req_type r = ORDER_TYPE_SELL /\ req_volume r = 2 /\
     req_price r = bid Sample.quote /\
     req_sl r = bid Sample.quote + 5 * 10 * point Sample.eurusd /\
     req_tp r = bid Sample.quote - 10 * 10 * point Sample.eurusd).
Proof.
  split.
  - apply (C6_order_prices config (Sample.world 1 10 None None) 2
             (Fin (1105 # 1000)) (Fin (1102 # 1000)) (Fin 25)
             Sample.eurusd Sample.quote).
    reflexivity.
  - apply (C6_order_prices config (Sample.world 1 10 None None) 2
             (Fin (1100 # 1000)) (Fin (1102 # 1000)) (Fin 75)
             Sample.eurusd Sample.quote).
    reflexivity.
Defined.

(** ** Shape of one pass *)

Lemma place_trade_events cfg w lot ty price sl tp :
  existsb is_reset_message (fst (place_trade cfg w lot ty price sl tp)) = false /\
  ~ In CallHistoryDealsGet (fst (place_trade cfg w lot ty price sl tp)).
Proof.
  unfold place_trade. destruct (order_send w _); simpl.
  - split; [now destruct (Z.eqb _ _)|].
    intros [H|[H|[]]]; discriminate.
  - split; [reflexivity|]. intros [H|[]]; discriminate.
Qed.

Lemma check_and_place_order_no_reset cfg w lot c sma rsi info tick :
  existsb is_reset_message
    (fst (check_and_place_order cfg w lot c sma rsi info tick)) = false.
Proof.
  unfold check_and_place_order.
  repeat break_match; simpl;
    match goal with
    | H : place_trade ?a ?b ?c ?d ?e ?f ?g = (?ev, _) |- _ =>
        pose proof (proj1 (place_trade_events a b c d e f g)) as P;
        rewrite H in P; exact P
    | _ => reflexivity
    end.
Qed.

Lemma trade_step_no_reset cfg s w :
  existsb is_reset_message (snd (trade_step cfg s w)) = false.
Proof.
  unfold trade_step, update_daily_loss.
  repeat break_match; simpl; try reflexivity;
    match goal with
    | H : check_and_place_order ?a ?b ?c ?d ?e ?f ?g ?h = (?ev, _) |- _ =>
        pose proof (check_and_place_order_no_reset a b c d e f g h) as P;
        rewrite H in P; simpl in P
    end;
    rewrite ?existsb_app, ?P; simpl; reflexivity.
Qed.

Lemma trade_step_keeps_date cfg s w s' ev :
  trade_step cfg s w = (Continue s', ev) ->
  last_reset_date s' = last_reset_date s.
Proof.
  unfold trade_step, update_daily_loss.
  repeat break_match; intro H; inversion H; subst; reflexivity.
Qed.

Lemma iteration_reset_message cfg s w :
  existsb is_reset_message (snd (iteration cfg s w)) = reset_fires cfg s w.
Proof.
  unfold iteration, reset_check.
  destruct (reset_fires cfg s w) eqn:F.
  - destruct (max_loss_reached _ _); [reflexivity|].
    destruct (trade_step _ _ _); reflexivity.
  - destruct (max_loss_reached cfg s); [reflexivity|].
    pose proof (trade_step_no_reset cfg s w) as P.
    destruct (trade_step cfg s w); exact P.
Qed.

Lemma iteration_date cfg s w s' ev :
  iteration cfg s w = (Continue s', ev) ->
  last_reset_date s' = last_reset_date (fst (reset_check cfg s w)).
Proof.
  unfold iteration.
  destruct (reset_check cfg s w) as [s1 ev1]. simpl.
  destruct (max_loss_reached cfg s1).
  - intro H; inversion H; reflexivity.
  - destruct (trade_step cfg s1 w) as [o ev2] eqn:T.
    intro H; inversion H; subst.
    eapply trade_step_keeps_date; eauto.
Qed.

Lemma run_cons_continue cfg s w ws s' ev :
  iteration cfg s w = (Continue s', ev) ->
  run cfg s (w :: ws) = ((w, ev) :: fst (run cfg s' ws), snd (run cfg s' ws)).
Proof.
  intro H. simpl. rewrite H. now destruct (run cfg s' ws).
Qed.

Lemma run_cons_break cfg s w ws s' ev :
  iteration cfg s w = (Break s', ev) ->
  run cfg s (w :: ws) = ([(w, ev)], Break s') /\
  script cfg s (w :: ws) = ev ++ [CallShutdown].
Proof.
  intro H. unfold script. simpl. rewrite H. simpl.
  now rewrite app_nil_r.
Qed.

(** ** The loss-limit gate *)

Lemma gate_closed cfg s w :
  max_loss_reached cfg (fst (reset_check cfg s w)) = true ->
  iteration cfg s w
  = (Continue (fst (reset_check cfg s w)),
     snd (reset_check cfg s w) ++ [PrintLine MsgMaxLossReached; sleep_event cfg]).
Proof.
  unfold iteration. destruct (reset_check cfg s w) as [s1 ev1]. simpl.
  now intros ->.
Qed.

Lemma reset_check_events cfg s w e :
  In e (snd (reset_check cfg s w)) -> e = PrintLine MsgDailyLossReset.
Proof.
  unfold reset_check. destruct (reset_fires cfg s w); simpl; intuition.
Qed.

(** C1, in the form the loop satisfies: when, after the daily-reset check, the accumulator
    is at least [daily_max_loss], the pass submits no order, does not
    query the deal history, keeps the accumulator as it is, and ends by
    sleeping for the loop interval before the next pass. *)
Theorem C1_gate_skips_trading_and_recompute cfg s w :
  daily_max_loss cfg <= daily_realized_loss (fst (reset_check cfg s w)) ->
  exists ev,
    iteration cfg s w = (Continue (fst (reset_check cfg s w)), ev) /\
    (forall e, In e ev -> is_order_send e = false) /\
    ~ In CallHistoryDealsGet ev /\
    ~ In CallAccountInfo ev /\
    exists ev0, ev = ev0 ++ [Sleep (loop_interval_minutes cfg * 60)].
Proof.
  intro H.
  assert (G : max_loss_reached cfg (fst (reset_check cfg s w)) = true)
    by (apply Qle_bool_iff; exact H).
  rewrite (gate_closed _ _ _ G).
  eexists; split; [reflexivity|].
  repeat split.
  - intros e I. apply in_app_or in I. destruct I as [I|[I|[I|[]]]].
    + apply reset_check_events in I. now subst.
    + now subst.
    + now subst.
  - intro I. apply in_app_or in I. destruct I as [I|[I|[I|[]]]];
      try discriminate. apply reset_check_events in I. discriminate.
  - intro I. apply in_app_or in I. destruct I as [I|[I|[I|[]]]];
      try discriminate. apply reset_check_events in I. discriminate.
  - exists (snd (reset_check cfg s w) ++ [PrintLine MsgMaxLossReached]).
    now rewrite <- app_assoc.
Qed.

Lemma C1_gate_skips_trading_and_recompute_witness :
  exists ev,
    iteration config (Sample.state 60 1)
      (Sample.world 1 10 (Some Sample.pullback_rates) (Some [Sample.own_loss]))
    = (Continue (Sample.state 60 1), ev) /\
    (forall e, In e ev -> is_order_send e = false) /\
    ~ In CallHistoryDealsGet ev /\
    ~ In CallAccountInfo ev /\
    exists ev0, ev = ev0 ++ [Sleep 300].
Proof.
  apply (C1_gate_skips_trading_and_recompute config (Sample.state 60 1)
           (Sample.world 1 10 (Some Sample.pullback_rates)
              (Some [Sample.own_loss]))).
  apply Qle_bool_iff. reflexivity.
Defined.

(** C1 as stated fails twice over.  With accumulator 60 and limit 50 on
    the day of the last reset, the pass sleeps without asking for the
    deal history: the accumulator stays 60 although the history of the
    day holds a loss of 75.  And when the same accumulator meets a new
    calendar day, the reset check zeroes it before the gate is tested, so
    the decision path runs and an order is sent. *)
Lemma C1_counterexample :
  let s := Sample.state 60 1 in
  let same_day :=
    Sample.world 1 10 (Some Sample.pullback_rates) (Some [Sample.own_loss]) in
  let next_day :=
    Sample.world 2 10 (Some Sample.pullback_rates) (Some [Sample.own_loss]) in
  daily_max_loss config <= daily_realized_loss s /\
  iteration config s same_day
  = (Continue s, [PrintLine MsgMaxLossReached; Sleep 300]) /\
  recompute_daily_loss config (history_deals_get same_day) == 75 /\
  ~ daily_realized_loss s
    == recompute_daily_loss config (history_deals_get same_day) /\
  exists r, In (CallOrderSend r) (snd (iteration config s next_day)).
Proof.
  cbv zeta. split; [|split; [|split; [|split]]].
  - apply Qle_bool_iff. reflexivity.
  - vm_compute. reflexivity.
  - vm_compute. reflexivity.
  - vm_compute. intro H; discriminate.
  - vm_compute. eexists. do 5 right. left. reflexivity.
Qed.

(** ** Realised daily loss *)

(** C2 fails on the code: line 156 reads
    [(magic == magic_number and type == SELL) or type == BUY], so a losing
    BUY deal of another strategy is counted.  With that single deal in
    the day's history the accumulator becomes 10, where the tag filter
    gives 0. *)
Theorem C2_foreign_buy_deal_counted :
  let w := Sample.world 1 10 (Some Sample.flat_rates)
             (Some [Sample.foreign_buy_loss]) in
  deal_magic Sample.foreign_buy_loss <> magic_number config /\
  recompute_daily_loss config (Some [Sample.foreign_buy_loss]) == 10 /\
  tagged_daily_loss config [Sample.foreign_buy_loss] == 0 /\
  exists s' ev,
    iteration config (Sample.state 0 1) w = (Continue s', ev) /\
    daily_realized_loss s' == 10.
Proof.
  cbv zeta. split; [|split; [|split]].
  - discriminate.
  - vm_compute. reflexivity.
  - vm_compute. reflexivity.
  - vm_compute. eexists; eexists; split; reflexivity.
Qed.

(** ** Lengths of the pandas columns *)

Lemma diff_from_length p s : length (diff_from p s) = length s.
Proof. revert p. induction s; simpl; auto. Qed.

Lemma diff_length s : length (diff s) = length s.
Proof. destruct s; simpl; [|rewrite diff_from_length]; reflexivity. Qed.

Lemma where_length c o s : length (where_ c o s) = length s.
Proof. apply length_map. Qed.

Lemma rolling_mean_length n s : length (rolling_mean n s) = length s.
Proof. unfold rolling_mean. now rewrite length_map, length_seq. Qed.

Lemma zip_with_length f a b :
  length a = length b -> length (zip_with f a b) = length a.
Proof.
  revert b. induction a as [|x a IH]; destruct b; simpl; try congruence.
  intro H. f_equal. apply IH. congruence.
Qed.

Lemma sma_column_length n s : length (sma_column n s) = length s.
Proof. apply rolling_mean_length. Qed.

Lemma gain_column_length n s : length (gain_column n s) = length s.
Proof.
  unfold gain_column. now rewrite rolling_mean_length, where_length, diff_length.
Qed.

Lemma loss_column_length n s : length (loss_column n s) = length s.
Proof.
  unfold loss_column.
  now rewrite length_map, rolling_mean_length, where_length, diff_length.
Qed.

Lemma rsi_column_length n s : length (rsi_column n s) = length s.
Proof.
  unfold rsi_column. rewrite zip_with_length; [apply gain_column_length|].
  now rewrite gain_column_length, loss_column_length.
Qed.

Lemma closes_of_length rates : length (closes_of rates) = length rates.
Proof. apply length_map. Qed.

Lemma iloc_last_nth (s : Series) :
  s <> [] -> iloc_last s = Some (nth (length s - 1) s NaN).
Proof.
  induction s as [|x s IH]; [congruence|]. intros _.
  destruct s as [|y s]; [reflexivity|].
  change (iloc_last (x :: y :: s)) with (iloc_last (y :: s)).
  rewrite IH by discriminate. simpl. now rewrite Nat.sub_0_r.
Qed.

Lemma iloc_last_none (s : Series) : iloc_last s = None <-> s = [].
Proof.
  split; [|now intros ->].
  destruct s as [|x s]; [reflexivity|].
  rewrite iloc_last_nth by discriminate. discriminate.
Qed.

Lemma nonempty_length {A} (l : list A) : l <> [] <-> (0 < length l)%nat.
Proof. destruct l; simpl; split; try congruence; try lia. Qed.

(** ** Fatal and non-fatal passes *)

Lemma gate_open cfg s w :
  max_loss_reached cfg (fst (reset_check cfg s w)) = false ->
  iteration cfg s w
  = (fst (trade_step cfg (fst (reset_check cfg s w)) w),
     snd (reset_check cfg s w)
     ++ snd (trade_step cfg (fst (reset_check cfg s w)) w)).
Proof.
  unfold iteration. destruct (reset_check cfg s w) as [s1 ev1]. simpl.
  intros ->. now destruct (trade_step cfg s1 w).
Qed.

(** C7: past the loss-limit gate, a failed fetch of the account, of the
    market data or of the symbol/tick information ends the loop at once
    (no later pass runs) and the script goes on to [mt5.shutdown()];
    a pass stopped by the loss limit and a pass without a signal both
    hand over to the next pass. *)
Theorem C7_fatal_fetch_soft_conditions cfg s w ws :
  let s1 := fst (reset_check cfg s w) in
  (max_loss_reached cfg s1 = false ->
   account_info w = None
   \/ (account_info w <> None /\ copy_rates_from_pos w = None)
   \/ (account_info w <> None /\
       (exists rates, copy_rates_from_pos w = Some rates /\ rates <> []) /\
       (symbol_info w = None \/ symbol_info_tick w = None)) ->
   exists ev,
     run cfg s (w :: ws) = ([(w, ev)], Break s1) /\
     script cfg s (w :: ws) = ev ++ [CallShutdown] /\
     forall e, In e ev -> is_order_send e = false) /\
  (max_loss_reached cfg s1 = true ->
   exists ev,
     run cfg s (w :: ws)
     = ((w, ev) :: fst (run cfg s1 ws), snd (run cfg s1 ws))) /\
  (forall balance rates close_price sma rsi info tick pv lot,
     max_loss_reached cfg s1 = false ->
     account_info w = Some balance ->
     copy_rates_from_pos w = Some rates ->
     iloc_last (closes_of rates) = Some close_price ->
     iloc_last (sma_column (sma_period cfg) (closes_of rates)) = Some sma ->
     iloc_last (rsi_column (rsi_period cfg) (closes_of rates)) = Some rsi ->
     symbol_info w = Some info ->
     symbol_info_tick w = Some tick ->
     pip_value info = Some pv ->
     lot_size (risk_percent cfg) (sl_pips cfg) balance pv = Some lot ->
     should_buy close_price sma rsi = false ->
     should_sell close_price sma rsi = false ->
     exists s' ev,
       run cfg s (w :: ws)
       = ((w, ev) :: fst (run cfg s' ws), snd (run cfg s' ws)) /\
       forall e, In e ev -> is_order_send e = false).
Proof.
  intro s1. split; [|split].
  - intros G F.
    assert (B : exists ev2, trade_step cfg s1 w = (Break s1, ev2) /\
                            forall e, In e ev2 -> is_order_send e = false).
    { unfold trade_step.
      destruct F as [A|[[A R]|[A [[rates [R N]] I]]]].
      - rewrite A. eexists; split; [reflexivity|].
        simpl; intuition; subst; reflexivity.
      - destruct (account_info w); [|congruence]. rewrite R.
        eexists; split; [reflexivity|].
        simpl; intuition; subst; reflexivity.
      - destruct (account_info w); [|congruence]. rewrite R.
        apply nonempty_length in N.
        rewrite !iloc_last_nth
          by (apply nonempty_length;
              rewrite ?sma_column_length, ?rsi_column_length, closes_of_length;
              exact N).
        destruct I as [I|I]; rewrite I; [|destruct (symbol_info w)];
          (eexists; split; [reflexivity|]);
          simpl; intuition; subst; reflexivity. }
    destruct B as [ev2 [T O]].
    pose proof (gate_open cfg s w G) as It. fold s1 in It.
    rewrite T in It. simpl in It.
    destruct (run_cons_break cfg s w ws _ _ It) as [R S].
    eexists; split; [exact R|split; [exact S|]].
    intros e I. apply in_app_or in I. destruct I as [I|I]; [|auto].
    apply reset_check_events in I. now subst.
  - intro G. pose proof (gate_closed cfg s w G) as It.
    eexists. apply run_cons_continue. exact It.
  - intros balance rates c sma rsi info tick pv lot G A R C S1 S2 I T P L B Sl.
    pose proof (gate_open cfg s w G) as It. fold s1 in It.
    unfold trade_step in It. rewrite A, R, C, S1, S2, I, T, P, L in It.
    unfold check_and_place_order in It. rewrite B, Sl in It.
    unfold update_daily_loss in It. simpl in It.
    eexists; eexists; split; [apply run_cons_continue; exact It|].
    intros e J. apply in_app_or in J. destruct J as [J|J].
    + apply reset_check_events in J. now subst.
    + simpl in J. intuition; subst; reflexivity.
Qed.

Lemma C7_fatal_fetch_soft_conditions_witness :
  (exists ev,
     run config (Sample.state 0 1)
       [Sample.world 1 10 None None;
        Sample.world 1 10 (Some Sample.flat_rates) None]
     = ([(Sample.world 1 10 None None, ev)], Break (Sample.state 0 1)) /\
     script config (Sample.state 0 1)
       [Sample.world 1 10 None None;
        Sample.world 1 10 (Some Sample.flat_rates) None]
     = ev ++ [CallShutdown] /\
     forall e, In e ev -> is_order_send e = false) /\
  (exists ev,
     run config (Sample.state 60 1)
       [Sample.world 1 10 (Some Sample.pullback_rates) None]
     = ([(Sample.world 1 10 (Some Sample.pullback_rates) None, ev)],
        Continue (Sample.state 60 1))) /\
  (exists s' ev,
     run config (Sample.state 0 1)
       [Sample.world 1 10 (Some Sample.flat_rates) None]
     = ([(Sample.world 1 10 (Some Sample.flat_rates) None, ev)], Continue s') /\
     forall e, In e ev -> is_order_send e = false).
Proof.
  split; [|split].
  - apply (C7_fatal_fetch_soft_conditions config (Sample.state 0 1)
             (Sample.world 1 10 None None)
             [Sample.world 1 10 (Some Sample.flat_rates) None]).
    + reflexivity.
    + right. left. split; [discriminate|reflexivity].
  - apply (C7_fatal_fetch_soft_conditions config (Sample.state 60 1)
             (Sample.world 1 10 (Some Sample.pullback_rates) None) []).
    reflexivity.
  - eapply (C7_fatal_fetch_soft_conditions config (Sample.state 0 1)
              (Sample.world 1 10 (Some Sample.flat_rates) None) []).
    + reflexivity.
    + reflexivity.
    + reflexivity.
    + vm_compute; reflexivity.
    + vm_compute; reflexivity.
    + vm_compute; reflexivity.
    + reflexivity.
    + reflexivity.
    + vm_compute; reflexivity.
    + vm_compute; reflexivity.
    + vm_compute; reflexivity.
    + vm_compute; reflexivity.
Defined.

(** ** The daily reset *)

Lemma chronological_weaken d d' ws :
  (d' <= d)%Z -> chronological d ws -> chronological d' ws.
Proof.
  destruct ws as [|w ws]; simpl; [auto|].
  intros L [A [B C]]. repeat split; auto. lia.
Qed.

Lemma reset_fires_iff cfg s w :
  reset_fires cfg s w = true <->
  today_at_check w <> last_reset_date s /\
  (daily_loss_reset_hour cfg <= now_hour w)%Z.
Proof.
  unfold reset_fires.
  rewrite andb_true_iff, negb_true_iff, Z.eqb_neq, Z.leb_le. tauto.
Qed.

Lemma reset_days_cons cfg s w ws :
  reset_days cfg s (w :: ws)
  = (if reset_fires cfg s w then [today_at_check w] else [])
    ++ match fst (iteration cfg s w) with
       | Continue s' => reset_days cfg s' ws
       | _ => []
       end.
Proof.
  unfold reset_days. simpl.
  pose proof (iteration_reset_message cfg s w) as M.
  destruct (iteration cfg s w) as [o ev]. simpl in M.
  destruct o as [s'| |]; simpl.
  - destruct (run cfg s' ws) as [tr o']. simpl. rewrite M.
    now destruct (reset_fires cfg s w).
  - rewrite M. now destruct (reset_fires cfg s w).
  - rewrite M. now destruct (reset_fires cfg s w).
Qed.

Lemma reset_days_later cfg ws : forall s,
  chronological (last_reset_date s) ws ->
  Forall (fun d => (last_reset_date s < d)%Z) (reset_days cfg s ws) /\
  NoDup (reset_days cfg s ws).
Proof.
  induction ws as [|w ws IH]; intros s C.
  - split; constructor.
  - rewrite reset_days_cons. destruct C as [C1 [C2 C3]].
    destruct (iteration cfg s w) as [o ev] eqn:It. simpl.
    destruct (reset_fires cfg s w) eqn:F.
    + apply reset_fires_iff in F as F'. destruct F' as [Ne _].
      destruct o as [s'| |]; simpl;
        try (split; [constructor; [lia|constructor]
                    |constructor; [intros []|constructor]]).
      pose proof (iteration_date _ _ _ _ _ It) as D.
      unfold reset_check in D. rewrite F in D. simpl in D.
      destruct (IH s') as [A B]; [rewrite D; exact C3|].
      rewrite D in A. split.
      * constructor; [lia|]. eapply Forall_impl; [|exact A].
        simpl. intros; lia.
      * constructor; [|exact B]. intro I.
        rewrite Forall_forall in A. specialize (A _ I). simpl in A. lia.
    + destruct o as [s'| |]; simpl; try (split; constructor).
      pose proof (iteration_date _ _ _ _ _ It) as D.
      unfold reset_check in D. rewrite F in D. simpl in D.
      destruct (IH s') as [A B].
      { rewrite D. apply (chronological_weaken (today_at_reset w)); [lia|exact C3]. }
      rewrite D in A. split; assumption.
Qed.

(** C4: the reset branch runs exactly when the date read differs from
    [last_reset_date] and the hour has reached the reset hour; it zeroes
    the accumulator and stores the date; a later pass that reads the
    stored date does not reset again; and along any run whose clock does
    not go backwards no calendar day sees the reset twice. *)
Theorem C4_reset_once_per_day cfg s ws :
  chronological (last_reset_date s) ws ->
  NoDup (reset_days cfg s ws) /\
  (forall s0 w,
     (reset_fires cfg s0 w = true <->
      today_at_check w <> last_reset_date s0 /\
      (daily_loss_reset_hour cfg <= now_hour w)%Z) /\
     (reset_fires cfg s0 w = true ->
      fst (reset_check cfg s0 w)
      = {| daily_realized_loss := 0; last_reset_date := today_at_reset w |}) /\
     (reset_fires cfg s0 w = false -> fst (reset_check cfg s0 w) = s0) /\
     (forall s' ev w',
        iteration cfg s0 w = (Continue s', ev) ->
        reset_fires cfg s0 w = true ->
        today_at_check w' = today_at_reset w ->
        reset_fires cfg s' w' = false)).
Proof.
  intro C. split; [apply (reset_days_later cfg ws s C)|].
  intros s0 w. split; [apply reset_fires_iff|].
  unfold reset_check. split; [|split].
  - now intros ->.
  - now intros ->.
  - intros s' ev w' It F E.
    pose proof (iteration_date _ _ _ _ _ It) as D.
    unfold reset_check in D. rewrite F in D. simpl in D.
    unfold reset_fires. rewrite E, D, Z.eqb_refl. reflexivity.
Qed.

(** Three passes on day 2 after a start on day 1: the reset runs in the
    first of them only. *)
Lemma C4_reset_once_per_day_witness :
  let ws := [Sample.world 2 0 (Some Sample.flat_rates) None;
             Sample.world 2 0 (Some Sample.flat_rates) None;
             Sample.world 2 1 (Some Sample.flat_rates) None] in
  reset_days config (Sample.state 60 1) ws = [2%Z] /\
  NoDup (reset_days config (Sample.state 60 1) ws).
Proof.
  cbv zeta. split; [vm_compute; reflexivity|].
  apply (C4_reset_once_per_day config (Sample.state 60 1)
           [Sample.world 2 0 (Some Sample.flat_rates) None;
            Sample.world 2 0 (Some Sample.flat_rates) None;
            Sample.world 2 1 (Some Sample.flat_rates) None]).
  simpl. lia.
Defined.

(** ** Rounding and lot size *)

Lemma round_half_even_bounds x :
  (Qfloor x <= round_half_even x <= Qfloor x + 1)%Z.
Proof.
  unfold round_half_even.
  destruct (Qlt_bool _ _); [lia|].
  destruct (Qlt_bool _ _); [lia|].
  destruct (Z.even _); lia.
Qed.

Lemma round_half_even_mono x y :
  x <= y -> (round_half_even x <= round_half_even y)%Z.
Proof.
  intro L. pose proof (Qfloor_resp_le _ _ L) as F.
  pose proof (round_half_even_bounds x) as Bx.
  pose proof (round_half_even_bounds y) as By.
  destruct (Z.eq_dec (Qfloor x) (Qfloor y)) as [E|N]; [|lia].
  clear Bx By F. unfold round_half_even. rewrite <- E.
  generalize (Qfloor x) as f. clear E. intro f.
  generalize (inject_Z f) as c. intro c.
  destruct (Qlt_bool (x - c) (1 # 2)) eqn:X1.
  - destruct (Qlt_bool (y - c) (1 # 2)); [lia|].
    destruct (Qlt_bool (1 # 2) (y - c)); [lia|].
    destruct (Z.even f); lia.
  - apply Qlt_bool_false_iff in X1.
    destruct (Qlt_bool (y - c) (1 # 2)) eqn:Y1.
    { apply Qlt_bool_iff in Y1. exfalso. lra. }
    destruct (Qlt_bool (1 # 2) (x - c)) eqn:X2.
    + apply Qlt_bool_iff in X2.
      destruct (Qlt_bool (1 # 2) (y - c)) eqn:Y2; [lia|].
      apply Qlt_bool_false_iff in Y2. exfalso. lra.
    + destruct (Qlt_bool (1 # 2) (y - c)); [destruct (Z.even f); lia|].
      lia.
Qed.

Lemma round2_mono x y : x <= y -> round2 x <= round2 y.
Proof.
  intro L. unfold round2.
  assert (M : (round_half_even (x * 100) <= round_half_even (y * 100))%Z)
    by (apply round_half_even_mono; lra).
  rewrite Zle_Qle in M.
  unfold Qdiv. apply Qmult_le_compat_r; [exact M|]. discriminate.
Qed.

Lemma clamp_lot_min q : 1 # 100 <= clamp_lot q.
Proof.
  unfold clamp_lot. destruct (Qlt_bool _ _) eqn:E.
  - apply Qle_refl.
  - now apply Qlt_bool_false_iff in E.
Qed.

Lemma clamp_lot_mono x y : x <= y -> clamp_lot x <= clamp_lot y.
Proof.
  intro L. apply round2_mono in L. unfold clamp_lot.
  destruct (Qlt_bool (round2 x) _) eqn:X, (Qlt_bool (round2 y) _) eqn:Y;
    rewrite ?Qlt_bool_iff, ?Qlt_bool_false_iff in *; lra.
Qed.

Lemma clamp_lot_nonpos q : q <= 0 -> clamp_lot q == 1 # 100.
Proof.
  intro L. apply Qle_antisym; [|apply clamp_lot_min].
  apply clamp_lot_mono in L.
  assert (E : clamp_lot 0 = 1 # 100) by reflexivity.
  now rewrite E in L.
Qed.

Lemma lot_size_some rp sl b pv :
  ~ sl * pv == 0 ->
  lot_size rp sl b pv = Some (clamp_lot (b * (rp / 100) / (sl * pv))).
Proof.
  intro N. unfold lot_size, clamp_lot.
  destruct (Qeq_bool (sl * pv) 0) eqn:E; [|reflexivity].
  apply Qeq_bool_iff in E. contradiction.
Qed.

Lemma lot_size_inv rp sl b pv lot :
  lot_size rp sl b pv = Some lot ->
  ~ sl * pv == 0 /\ lot = clamp_lot (b * (rp / 100) / (sl * pv)).
Proof.
  unfold lot_size, clamp_lot.
  destruct (Qeq_bool (sl * pv) 0) eqn:E; [discriminate|].
  apply Qeq_bool_neq in E. intro H; inversion H. auto.
Qed.

Lemma Qmult_pos a b : 0 < a -> 0 < b -> 0 < a * b.
Proof. intros. nra. Qed.

Lemma Qdiv_le_num a b d : 0 < d -> a <= b -> a / d <= b / d.
Proof.
  intros D L. unfold Qdiv. apply Qmult_le_compat_r; [exact L|].
  apply Qlt_le_weak, Qinv_lt_0_compat, D.
Qed.

Lemma Qdiv_le_den a d1 d2 : 0 <= a -> 0 < d1 -> d1 <= d2 -> a / d2 <= a / d1.
Proof.
  intros A D1 L.
  assert (D2 : 0 < d2) by lra.
  apply Qle_shift_div_l; [exact D1|].
  assert (E : a / d2 * d1 == a * (d1 / d2)) by (field; lra).
  rewrite E.
  assert (d1 / d2 <= 1) by (apply Qle_shift_div_r; lra).
  assert (0 <= d1 / d2) by (apply Qle_shift_div_l; lra).
  nra.
Qed.

Lemma Qdiv_neg a d : a < 0 -> 0 < d -> a / d <= 0.
Proof.
  intros A D.
  assert (E : 0 == 0 / d) by (field; lra).
  rewrite E. apply Qdiv_le_num; lra.
Qed.



(** C8: for a positive pip value the lot does not grow when the stop
    distance (positive) grows; for a non-negative risk percentage it does
    not shrink when the balance grows; and whatever the inputs, a lot
    that is computed is at least 0.01, which is also its value when the
    risk money is zero. *)
Theorem C8_lot_size_monotone :
  (forall risk_percent balance pip_value_per_lot sl1 sl2,
     0 < pip_value_per_lot -> 0 < sl1 -> sl1 <= sl2 ->
     exists lot1 lot2,
       lot_size risk_percent sl1 balance pip_value_per_lot = Some lot1 /\
       lot_size risk_percent sl2 balance pip_value_per_lot = Some lot2 /\
       lot2 <= lot1) /\
  (forall risk_percent stop_loss_pips pip_value_per_lot balance1 balance2,
     0 <= risk_percent -> 0 < stop_loss_pips -> 0 < pip_value_per_lot ->
     balance1 <= balance2 ->
     exists lot1 lot2,
       lot_size risk_percent stop_loss_pips balance1 pip_value_per_lot = Some lot1 /\
       lot_size risk_percent stop_loss_pips balance2 pip_value_per_lot = Some lot2 /\
       lot1 <= lot2) /\
  (forall risk_percent stop_loss_pips balance pip_value_per_lot,
     ~ stop_loss_pips * pip_value_per_lot == 0 ->
     exists lot,
       lot_size risk_percent stop_loss_pips balance pip_value_per_lot = Some lot /\
       1 # 100 <= lot /\
       (balance * (risk_percent / 100) == 0 -> lot == 1 # 100)) /\
  (forall risk_percent stop_loss_pips balance pip_value_per_lot lot,
     lot_size risk_percent stop_loss_pips balance pip_value_per_lot = Some lot ->
     1 # 100 <= lot).
Proof.
  split; [|split; [|split]].
  - intros rp b pv sl1 sl2 P S1 L.
    assert (D1 : 0 < sl1 * pv) by (apply Qmult_pos; lra).
    assert (D12 : sl1 * pv <= sl2 * pv) by nra.
    rewrite !lot_size_some by lra.
    eexists; eexists; split; [reflexivity|split; [reflexivity|]].
    destruct (Qlt_le_dec (b * (rp / 100)) 0) as [Neg|Pos].
    + rewrite !clamp_lot_nonpos; [apply Qle_refl| |];
        apply Qdiv_neg; lra.
    + apply clamp_lot_mono. apply Qdiv_le_den; assumption.
  - intros rp sl pv b1 b2 R S P L.
    assert (D : 0 < sl * pv) by (apply Qmult_pos; lra).
    rewrite !lot_size_some by lra.
    eexists; eexists; split; [reflexivity|split; [reflexivity|]].
    apply clamp_lot_mono, Qdiv_le_num; [exact D|].
    assert (0 <= rp / 100) by (apply Qle_shift_div_l; lra).
    nra.
  - intros rp sl b pv N. rewrite (lot_size_some _ _ _ _ N).
    eexists; split; [reflexivity|]. split; [apply clamp_lot_min|].
    intro Z. apply clamp_lot_nonpos.
    rewrite Z. unfold Qdiv. rewrite Qmult_0_l. apply Qle_refl.
  - intros rp sl b pv lot H. apply lot_size_inv in H. destruct H as [_ ->].
    apply clamp_lot_min.
Qed.

(** Halving the stop distance, doubling the balance, and a zero balance. *)
Lemma C8_lot_size_monotone_witness :
  (exists lot1 lot2,
     lot_size 1 5 10000 10 = Some lot1 /\ lot_size 1 10 10000 10 = Some lot2 /\
     lot2 <= lot1) /\
  (exists lot1 lot2,
     lot_size 1 5 5000 10 = Some lot1 /\ lot_size 1 5 10000 10 = Some lot2 /\
     lot1 <= lot2) /\
  (exists lot,
     lot_size 1 5 0 10 = Some lot /\ 1 # 100 <= lot /\
     (0 * (1 / 100) == 0 -> lot == 1 # 100)) /\
  1 # 100 <= 200 # 100.
Proof.
  split; [|split; [|split]].
  - apply (proj1 C8_lot_size_monotone 1 10000 10 5 10);
      [reflexivity|reflexivity|discriminate].
  - apply (proj1 (proj2 C8_lot_size_monotone) 1 5 10 5000 10000);
      [discriminate|reflexivity|reflexivity|discriminate].
  - apply (proj1 (proj2 (proj2 C8_lot_size_monotone)) 1 5 0 10).
    discriminate.
  - apply (proj2 (proj2 (proj2 C8_lot_size_monotone)) 1 5 10000 10 (200 # 100)).
    vm_compute. reflexivity.
Defined.

(** ** The latest bar of the indicator columns *)

Lemma iloc_last_map (f : fval -> fval) (s : Series) :
  iloc_last (map f s) = option_map f (iloc_last s).
Proof.
  induction s as [|x s IH]; [reflexivity|].
  destruct s as [|y s]; [reflexivity|]. exact IH.
Qed.

Lemma iloc_last_zip_with f : forall a b x y,
  length a = length b ->
  iloc_last a = Some x -> iloc_last b = Some y ->
  iloc_last (zip_with f a b) = Some (f x y).
Proof.
  induction a as [|u a IH]; intros b x y L A B; [discriminate|].
  destruct b as [|v b]; [discriminate|].
  destruct a as [|u' a], b as [|v' b]; try discriminate.
  - simpl in *. congruence.
  - apply (IH (v' :: b)); auto.
Qed.

Lemma iloc_last_rolling_mean n (s : Series) :
  s <> [] ->
  iloc_last (rolling_mean n s) = Some (rolling_mean_at n s (length s - 1)).
Proof.
  intro N. apply nonempty_length in N.
  rewrite iloc_last_nth
    by (apply nonempty_length; now rewrite rolling_mean_length).
  rewrite rolling_mean_length. unfold rolling_mean. f_equal.
  rewrite (nth_indep _ NaN (rolling_mean_at n s 0))
    by (rewrite length_map, length_seq; lia).
  rewrite map_nth, seq_nth by lia. reflexivity.
Qed.

(** Before [n] observations exist the rolling mean is NaN. *)
Lemma rolling_mean_short n (s : Series) :
  s <> [] -> (length s < n)%nat ->
  iloc_last (rolling_mean n s) = Some NaN.
Proof.
  intros N L. rewrite iloc_last_rolling_mean by exact N.
  unfold rolling_mean_at.
  apply nonempty_length in N.
  replace (S (length s - 1)) with (length s) by lia.
  apply Nat.ltb_lt in L. now rewrite L.
Qed.

Lemma rolling_mean_full n (s : Series) :
  (n <= length s)%nat -> (0 < n)%nat ->
  iloc_last (rolling_mean n s)
  = Some (fdiv (fsum (skipn (length s - n) s)) (Fin (inject_Z (Z.of_nat n)))).
Proof.
  intros L P.
  rewrite iloc_last_rolling_mean by (apply nonempty_length; lia).
  unfold rolling_mean_at, window.
  replace (S (length s - 1)) with (length s) by lia.
  assert (F : Nat.ltb (length s) n = false) by (apply Nat.ltb_ge; lia).
  rewrite F. rewrite firstn_all2; [reflexivity|].
  rewrite length_skipn. lia.
Qed.

(** *** Finite series *)

Lemma fsub_fin a b : exists q, fsub (Fin a) (Fin b) = Fin q /\ q == a - b.
Proof.
  unfold fsub, fneg. destruct (Qeq_bool b 0) eqn:E; simpl.
  - apply Qeq_bool_iff in E. exists a. split; [reflexivity|]. rewrite E. ring.
  - eexists; split; [reflexivity|]. ring.
Qed.

Lemma diff_from_fin rates : forall p,
  Forall fin_or_nan (diff_from (Fin p) (closes_of rates)).
Proof.
  induction rates as [|a rates IH]; intro p; simpl; constructor.
  - destruct (fsub_fin a p) as [q [E _]]. right. eauto.
  - apply IH.
Qed.

Lemma diff_fin rates : Forall fin_or_nan (diff (closes_of rates)).
Proof.
  destruct rates as [|a rates]; simpl; constructor.
  - now left.
  - apply diff_from_fin.
Qed.

Lemma where_gain_nonneg (s : Series) :
  Forall fin_or_nan s ->
  Forall fin_nonneg (where_ (fun d => fgt d (Fin 0)) (Fin 0) s).
Proof.
  intro F. unfold where_. apply Forall_map.
  eapply Forall_impl; [|exact F].
  intros x [->|[q ->]]; simpl.
  - exists 0. split; [reflexivity|apply Qle_refl].
  - destruct (Qlt_bool 0 q) eqn:E.
    + apply Qlt_bool_iff in E. exists q. split; [reflexivity|lra].
    + exists 0. split; [reflexivity|apply Qle_refl].
Qed.

Lemma where_loss_nonpos (s : Series) :
  Forall fin_or_nan s ->
  Forall fin_nonpos (where_ (fun d => flt d (Fin 0)) (Fin 0) s).
Proof.
  intro F. unfold where_. apply Forall_map.
  eapply Forall_impl; [|exact F].
  intros x [->|[q ->]]; simpl.
  - exists 0. split; [reflexivity|apply Qle_refl].
  - destruct (Qlt_bool q 0) eqn:E.
    + apply Qlt_bool_iff in E. exists q. split; [reflexivity|lra].
    + exists 0. split; [reflexivity|apply Qle_refl].
Qed.

Lemma Forall_skipn {A} (P : A -> Prop) k (l : list A) :
  Forall P l -> Forall P (skipn k l).
Proof.
  intro F. rewrite <- (firstn_skipn k l) in F.
  apply Forall_app in F. tauto.
Qed.

Lemma fsum_nonneg (w : list fval) :
  Forall fin_nonneg w -> fin_nonneg (fsum w).
Proof.
  unfold fsum.
  assert (G : forall acc, 0 <= acc -> Forall fin_nonneg w ->
                          fin_nonneg (fold_left fadd w (Fin acc))).
  { induction w as [|x w IH]; intros acc A F; simpl.
    - exists acc. auto.
    - inversion F as [|? ? [q [-> Q]] F']; subst. simpl.
      apply IH; [lra|exact F']. }
  apply G. apply Qle_refl.
Qed.

Lemma fsum_nonpos (w : list fval) :
  Forall fin_nonpos w -> fin_nonpos (fsum w).
Proof.
  unfold fsum.
  assert (G : forall acc, acc <= 0 -> Forall fin_nonpos w ->
                          fin_nonpos (fold_left fadd w (Fin acc))).
  { induction w as [|x w IH]; intros acc A F; simpl.
    - exists acc. auto.
    - inversion F as [|? ? [q [-> Q]] F']; subst. simpl.
      apply IH; [lra|exact F']. }
  apply G. apply Qle_refl.
Qed.

Lemma inject_nat_pos n : (0 < n)%nat -> 0 < inject_Z (Z.of_nat n).
Proof.
  intro P. change 0 with (inject_Z 0). rewrite <- Zlt_Qlt. lia.
Qed.

(** The mean of non-negative finite values is a non-negative finite
    value, and a zero sum gives the positive zero. *)
Lemma mean_nonneg x n :
  fin_nonneg x -> (0 < n)%nat ->
  fin_nonneg (fdiv x (Fin (inject_Z (Z.of_nat n)))).
Proof.
  intros [q [-> Q]] P. pose proof (inject_nat_pos n P) as N.
  set (d := inject_Z (Z.of_nat n)) in *.
  unfold fdiv, is_zero, negative.
  assert (D0 : Qeq_bool d 0 = false).
  { destruct (Qeq_bool d 0) eqn:E; [|reflexivity].
    apply Qeq_bool_iff in E. lra. }
  rewrite D0.
  destruct (Qeq_bool q 0) eqn:E.
  - assert (A : Qlt_bool q 0 = false) by (apply Qlt_bool_false_iff; exact Q).
    assert (B : Qlt_bool d 0 = false) by (apply Qlt_bool_false_iff; lra).
    rewrite A, B. exists 0. split; [reflexivity|apply Qle_refl].
  - exists (q / d). split; [reflexivity|].
    apply Qle_shift_div_l; lra.
Qed.

Lemma mean_nonpos x n :
  fin_nonpos x -> (0 < n)%nat ->
  exists m, fdiv x (Fin (inject_Z (Z.of_nat n))) = Fin m /\ m <= 0.
Proof.
  intros [q [-> Q]] P. pose proof (inject_nat_pos n P) as N.
  set (d := inject_Z (Z.of_nat n)) in *.
  unfold fdiv, is_zero, negative.
  assert (D0 : Qeq_bool d 0 = false).
  { destruct (Qeq_bool d 0) eqn:E; [|reflexivity].
    apply Qeq_bool_iff in E. lra. }
  rewrite D0.
  destruct (Qeq_bool q 0) eqn:E.
  - apply Qeq_bool_iff in E.
    assert (A : Qlt_bool q 0 = false) by (apply Qlt_bool_false_iff; lra).
    assert (B : Qlt_bool d 0 = false) by (apply Qlt_bool_false_iff; lra).
    rewrite A, B. exists 0. split; [reflexivity|apply Qle_refl].
  - exists (q / d). split; [reflexivity|].
    apply Qle_shift_div_r; lra.
Qed.

(** *** The RSI formula on one bar *)

Lemma Qeq_bool_false x : ~ x == 0 -> Qeq_bool x 0 = false.
Proof.
  intro N. destruct (Qeq_bool x 0) eqn:E; [|reflexivity].
  apply Qeq_bool_iff in E. contradiction.
Qed.

Lemma fdiv_fin a b :
  ~ a == 0 -> ~ b == 0 -> fdiv (Fin a) (Fin b) = Fin (a / b).
Proof.
  intros A B. unfold fdiv, is_zero.
  now rewrite (Qeq_bool_false _ A), (Qeq_bool_false _ B).
Qed.

Lemma fsub_fin_nonzero a b : ~ b == 0 -> fsub (Fin a) (Fin b) = Fin (a + - b).
Proof.
  intro B. unfold fsub, fneg. now rewrite (Qeq_bool_false _ B).
Qed.

(** With a non-negative average gain [g] and the negated average loss
    [-m] (where [m <= 0] is the rolling mean of the negative moves): NaN
    when both are zero, otherwise a finite value in [0, 100], which is 100
    when only the loss is zero. *)
Lemma rsi_of_cases g m :
  0 <= g -> m <= 0 ->
  (g == 0 /\ m == 0 /\ rsi_of (Fin g) (fneg (Fin m)) = NaN) \/
  (~ (g == 0 /\ m == 0) /\
   exists q, rsi_of (Fin g) (fneg (Fin m)) = Fin q /\ 0 <= q <= 100 /\
             (m == 0 -> q == 100)).
Proof.
  intros G M. unfold rsi_of, fneg.
  destruct (Qeq_bool m 0) eqn:Em.
  - apply Qeq_bool_iff in Em.
    destruct (Qeq_bool g 0) eqn:Eg.
    + left. apply Qeq_bool_iff in Eg as Eg'. repeat split; auto.
      unfold fdiv at 2. unfold is_zero. rewrite Eg. reflexivity.
    + right. apply Qeq_bool_neq in Eg as Eg'. split; [tauto|].
      assert (S : Qlt_bool g 0 = false) by (apply Qlt_bool_false_iff; exact G).
      unfold fdiv at 2. unfold is_zero, negative. rewrite Eg, S.
      exists (100 + 0). split; [reflexivity|].
      split; [split; discriminate|]. intros _. reflexivity.
  - apply Qeq_bool_neq in Em. right. split; [tauto|].
    assert (L : 0 < - m) by lra.
    destruct (Qeq_bool g 0) eqn:Eg.
    + assert (S : Qlt_bool g 0 = false) by (apply Qlt_bool_false_iff; exact G).
      assert (S' : Qlt_bool (- m) 0 = false) by (apply Qlt_bool_false_iff; lra).
      unfold fdiv at 2. unfold is_zero, negative.
      rewrite Eg, S, S', (Qeq_bool_false (- m)) by lra.
      eexists. split; [vm_compute; reflexivity|].
      split; [split; discriminate|]. intro; contradiction.
    + apply Qeq_bool_neq in Eg.
      rewrite (fdiv_fin g (- m)) by lra.
      assert (T : 0 < g / - m) by (apply Qlt_shift_div_l; lra).
      set (t := g / - m) in *.
      unfold fadd at 1.
      rewrite (fdiv_fin 100 (1 + t)) by (try discriminate; lra).
      assert (U : 0 < 100 / (1 + t)) by (apply Qlt_shift_div_l; lra).
      assert (V : 100 / (1 + t) <= 100) by (apply Qle_shift_div_r; lra).
      rewrite fsub_fin_nonzero by lra.
      eexists. split; [reflexivity|].
      split; [lra|]. intro; contradiction.
Qed.

Lemma rsi_of_nan_l l : rsi_of NaN l = NaN.
Proof. reflexivity. Qed.

(** *** Latest gain, loss and RSI of a window *)

Lemma latest_rsi n (close : Series) g l :
  iloc_last (gain_column n close) = Some g ->
  iloc_last (loss_column n close) = Some l ->
  iloc_last (rsi_column n close) = Some (rsi_of g l).
Proof.
  intros G L. unfold rsi_column.
  apply iloc_last_zip_with; auto.
  now rewrite gain_column_length, loss_column_length.
Qed.

Lemma latest_gain n rates :
  (0 < n)%nat -> (n <= length rates)%nat ->
  exists g, iloc_last (gain_column n (closes_of rates)) = Some (Fin g) /\ 0 <= g.
Proof.
  intros P L. unfold gain_column.
  rewrite rolling_mean_full
    by (rewrite ?where_length, ?diff_length, ?closes_of_length; assumption).
  destruct (mean_nonneg
              (fsum (skipn (length (where_ (fun d => fgt d (Fin 0)) (Fin 0)
                                      (diff (closes_of rates))) - n)
                       (where_ (fun d => fgt d (Fin 0)) (Fin 0)
                          (diff (closes_of rates))))) n) as [g [E G]].
  - apply fsum_nonneg, Forall_skipn, where_gain_nonneg, diff_fin.
  - exact P.
  - exists g. rewrite E. auto.
Qed.

Lemma latest_loss n rates :
  (0 < n)%nat -> (n <= length rates)%nat ->
  exists m, iloc_last (loss_column n (closes_of rates)) = Some (fneg (Fin m))
            /\ m <= 0.
Proof.
  intros P L. unfold loss_column. rewrite iloc_last_map.
  rewrite rolling_mean_full
    by (rewrite ?where_length, ?diff_length, ?closes_of_length; assumption).
  destruct (mean_nonpos
              (fsum (skipn (length (where_ (fun d => flt d (Fin 0)) (Fin 0)
                                      (diff (closes_of rates))) - n)
                       (where_ (fun d => flt d (Fin 0)) (Fin 0)
                          (diff (closes_of rates))))) n) as [m [E M]].
  - apply fsum_nonpos, Forall_skipn, where_loss_nonpos, diff_fin.
  - exact P.
  - exists m. rewrite E. auto.
Qed.

Lemma is_zero_fneg m : is_zero (fneg (Fin m)) = Qeq_bool m 0.
Proof.
  unfold fneg. destruct (Qeq_bool m 0) eqn:E; [reflexivity|]. simpl.
  apply Qeq_bool_false. apply Qeq_bool_neq in E. lra.
Qed.

Lemma fle_fin a b : fle (Fin a) (Fin b) = true <-> a <= b.
Proof.
  unfold fle. simpl. rewrite negb_true_iff. apply Qlt_bool_false_iff.
Qed.

Lemma latest_short n rates :
  rates <> [] -> (length rates < n)%nat ->
  iloc_last (sma_column n (closes_of rates)) = Some NaN /\
  iloc_last (gain_column n (closes_of rates)) = Some NaN /\
  iloc_last (rsi_column n (closes_of rates)) = Some NaN.
Proof.
  intros N L.
  assert (N' : forall (s : Series), length s = length rates -> s <> []).
  { intros s E. apply nonempty_length. rewrite E. now apply nonempty_length. }
  assert (G : iloc_last (gain_column n (closes_of rates)) = Some NaN).
  { unfold gain_column. apply rolling_mean_short.
    - apply N'. now rewrite where_length, diff_length, closes_of_length.
    - now rewrite where_length, diff_length, closes_of_length. }
  split; [|split; [exact G|]].
  - unfold sma_column. apply rolling_mean_short.
    + apply N', closes_of_length.
    + now rewrite closes_of_length.
  - assert (Lo : iloc_last (loss_column n (closes_of rates)) = Some NaN).
    { unfold loss_column. rewrite iloc_last_map, rolling_mean_short; [reflexivity| |].
      - apply N'. now rewrite where_length, diff_length, closes_of_length.
      - now rewrite where_length, diff_length, closes_of_length. }
    rewrite (latest_rsi _ _ _ _ G Lo). reflexivity.
Qed.

(** *** A flat trailing window *)

Lemma diff_from_repeat x n : diff_from x (repeat x n) = repeat (fsub x x) n.
Proof. induction n; simpl; congruence. Qed.

Lemma diff_from_snoc (s : Series) x (t : Series) : forall p,
  exists front,
    diff_from p (s ++ x :: t) = front ++ diff_from x t /\
    length front = S (length s).
Proof.
  induction s as [|a s IH]; intro p; simpl.
  - exists [fsub x p]. auto.
  - destruct (IH a) as [front [E L]].
    exists (fsub a p :: front). simpl. rewrite E, L. auto.
Qed.

Lemma diff_snoc (s : Series) x (t : Series) :
  exists front,
    diff (s ++ x :: t) = front ++ diff_from x t /\
    length front = S (length s).
Proof.
  destruct s as [|a s]; simpl.
  - exists [NaN]. auto.
  - destruct (diff_from_snoc s x t a) as [front [E L]].
    exists (NaN :: front). simpl. rewrite E, L. auto.
Qed.

Lemma fsum_zeros n : exists q, fsum (repeat (Fin 0) n) = Fin q /\ q == 0.
Proof.
  unfold fsum.
  assert (G : forall acc, acc == 0 ->
             exists q, fold_left fadd (repeat (Fin 0) n) (Fin acc) = Fin q /\ q == 0).
  { induction n as [|n IH]; intros acc A; simpl.
    - eauto.
    - apply IH. rewrite A. reflexivity. }
  apply G. reflexivity.
Qed.

Lemma mean_zero q n :
  q == 0 -> (0 < n)%nat -> fdiv (Fin q) (Fin (inject_Z (Z.of_nat n))) = Fin 0.
Proof.
  intros Z P. pose proof (inject_nat_pos n P) as N.
  unfold fdiv, is_zero, negative.
  rewrite (Qeq_bool_false (inject_Z (Z.of_nat n))) by lra.
  apply Qeq_bool_iff in Z as Zb. rewrite Zb.
  assert (A : Qlt_bool q 0 = false) by (apply Qlt_bool_false_iff; lra).
  assert (B : Qlt_bool (inject_Z (Z.of_nat n)) 0 = false)
    by (apply Qlt_bool_false_iff; lra).
  now rewrite A, B.
Qed.

(** When the last [n + 1] closes are equal, every move in the trailing
    window is replaced by 0, in the gain series and in the loss series. *)
Lemma flat_tail_where (cond : fval -> bool) pre c n :
  (forall q, q == 0 -> cond (Fin q) = false) ->
  exists front,
    where_ cond (Fin 0) (diff (closes_of (pre ++ repeat c (S n))))
    = front ++ repeat (Fin 0) n /\
    length front = S (length pre).
Proof.
  intro C. unfold closes_of. rewrite map_app, map_repeat. simpl.
  destruct (diff_snoc (map Fin pre) (Fin c) (repeat (Fin c) n)) as [front [E L]].
  rewrite E, diff_from_repeat. unfold where_. rewrite map_app, map_repeat.
  exists (map (fun x => if cond x then x else Fin 0) front).
  rewrite length_map, L, length_map. split; [|reflexivity].
  destruct (fsub_fin c c) as [q [-> Q]].
  rewrite C; [reflexivity|]. rewrite Q. ring.
Qed.

Lemma flat_tail_mean (cond : fval -> bool) pre c n :
  (0 < n)%nat ->
  (forall q, q == 0 -> cond (Fin q) = false) ->
  iloc_last (rolling_mean n
               (where_ cond (Fin 0) (diff (closes_of (pre ++ repeat c (S n))))))
  = Some (Fin 0).
Proof.
  intros P C. destruct (flat_tail_where cond pre c n C) as [front [E L]].
  rewrite E. rewrite rolling_mean_full;
    [|rewrite length_app, repeat_length; lia|exact P].
  rewrite length_app, repeat_length.
  replace (length front + n - n)%nat with (length front) by lia.
  rewrite skipn_app, skipn_all, Nat.sub_diag. simpl.
  destruct (fsum_zeros n) as [q [-> Q]].
  now rewrite mean_zero.
Qed.

Lemma flat_tail_rsi pre c n :
  (0 < n)%nat ->
  iloc_last (gain_column n (closes_of (pre ++ repeat c (S n)))) = Some (Fin 0) /\
  iloc_last (loss_column n (closes_of (pre ++ repeat c (S n)))) = Some NegZero /\
  iloc_last (rsi_column n (closes_of (pre ++ repeat c (S n)))) = Some NaN.
Proof.
  intro P.
  assert (G : iloc_last (gain_column n (closes_of (pre ++ repeat c (S n))))
              = Some (Fin 0)).
  { unfold gain_column. apply flat_tail_mean; [exact P|].
    intros q Q. unfold fgt. simpl. apply Qlt_bool_false_iff. lra. }
  assert (L : iloc_last (loss_column n (closes_of (pre ++ repeat c (S n))))
              = Some NegZero).
  { unfold loss_column. rewrite iloc_last_map, flat_tail_mean; [reflexivity|exact P|].
    intros q Q. simpl. apply Qlt_bool_false_iff. lra. }
  split; [exact G|split; [exact L|]].
  rewrite (latest_rsi _ _ _ _ G L). reflexivity.
Qed.

(** ** RSI of the latest bar *)

(** C3, in the form the indicator satisfies: with at least
    [rsi_period >= 1] bars, the RSI of the
    latest bar is NaN when the trailing averages of gains and of losses
    are both zero and lies in [0, 100] otherwise; when the trailing
    average of losses is zero and that of gains is not, it is exactly
    100.  With fewer than [rsi_period] bars it is NaN. *)
Theorem C3_rsi_in_range_or_nan :
  (forall n rates,
     (0 < n)%nat -> (n <= length rates)%nat ->
     exists g l r,
       iloc_last (gain_column n (closes_of rates)) = Some g /\
       iloc_last (loss_column n (closes_of rates)) = Some l /\
       iloc_last (rsi_column n (closes_of rates)) = Some r /\
       (is_zero g && is_zero l = true -> r = NaN) /\
       (is_zero g && is_zero l = false -> in_0_100 r = true) /\
       (is_zero l = true -> is_zero g = false ->
        exists q, r = Fin q /\ q == 100)) /\
  (forall n rates,
     rates <> [] -> (length rates < n)%nat ->
     iloc_last (rsi_column n (closes_of rates)) = Some NaN).
Proof.
  split; [|intros n rates N L; apply (latest_short n rates N L)].
  intros n rates P L.
  destruct (latest_gain n rates P L) as [g [G Gn]].
  destruct (latest_loss n rates P L) as [m [Lo Mn]].
  exists (Fin g), (fneg (Fin m)), (rsi_of (Fin g) (fneg (Fin m))).
  split; [exact G|]. split; [exact Lo|].
  split; [apply latest_rsi; assumption|].
  rewrite is_zero_fneg. unfold is_zero.
  destruct (rsi_of_cases g m Gn Mn) as [[Zg [Zm E]]|[NZ [q [E [R H]]]]];
    rewrite E.
  - apply Qeq_bool_iff in Zg, Zm. rewrite Zg, Zm.
    split; [auto|]. split; discriminate.
  - split; [|split].
    + intro B. apply andb_true_iff in B. destruct B as [B1 B2].
      apply Qeq_bool_iff in B1, B2. tauto.
    + intros _. unfold in_0_100. apply andb_true_iff.
      split; apply fle_fin; tauto.
    + intros Zm _. apply Qeq_bool_iff in Zm. eauto.
Qed.

Lemma C3_rsi_in_range_or_nan_witness :
  (exists g l r,
     iloc_last (gain_column 14 (closes_of Sample.pullback_rates)) = Some g /\
     iloc_last (loss_column 14 (closes_of Sample.pullback_rates)) = Some l /\
     iloc_last (rsi_column 14 (closes_of Sample.pullback_rates)) = Some r /\
     (is_zero g && is_zero l = true -> r = NaN) /\
     (is_zero g && is_zero l = false -> in_0_100 r = true) /\
     (is_zero l = true -> is_zero g = false ->
      exists q, r = Fin q /\ q == 100)) /\
  iloc_last (rsi_column 14 (closes_of [1; 2; 3])) = Some NaN.
Proof.
  split.
  - apply (proj1 C3_rsi_in_range_or_nan 14%nat Sample.pullback_rates).
    + lia.
    + vm_compute. lia.
  - apply (proj2 C3_rsi_in_range_or_nan 14%nat [1; 2; 3]).
    + discriminate.
    + simpl. lia.
Defined.

(** C3 as stated fails on a flat window: with 100 equal closes and the
    period 14 of the script the trailing average of losses is zero, yet
    the RSI of the latest bar is NaN, which is neither 100 nor inside
    [0, 100]. *)
Lemma C3_counterexample :
  exists l,
    iloc_last (loss_column (rsi_period config) (closes_of Sample.flat_rates))
    = Some l /\ is_zero l = true /\
    iloc_last (rsi_column (rsi_period config) (closes_of Sample.flat_rates))
    = Some NaN /\
    in_0_100 NaN = false /\ NaN <> Fin 100.
Proof.
  exists NegZero. split; [vm_compute; reflexivity|].
  split; [reflexivity|]. split; [vm_compute; reflexivity|].
  split; [reflexivity|discriminate].
Qed.

(** ** Undefined indicators *)

Lemma nan_no_signal close_price sma rsi :
  is_nan sma || is_nan rsi = true ->
  should_buy close_price sma rsi = false /\
  should_sell close_price sma rsi = false.
Proof.
  unfold should_buy, should_sell, fgt. intro H.
  apply orb_true_iff in H. destruct H as [H|H].
  - destruct sma; try discriminate. now rewrite flt_nan_l, flt_nan_r.
  - destruct rsi; try discriminate.
    now rewrite flt_nan_l, flt_nan_r, !andb_false_r.
Qed.

Lemma trade_step_no_signal cfg s w rates sma rsi :
  copy_rates_from_pos w = Some rates ->
  iloc_last (sma_column (sma_period cfg) (closes_of rates)) = Some sma ->
  iloc_last (rsi_column (rsi_period cfg) (closes_of rates)) = Some rsi ->
  (forall c, should_buy c sma rsi = false /\ should_sell c sma rsi = false) ->
  forall e, In e (snd (trade_step cfg s w)) -> is_order_send e = false.
Proof.
  intros R S1 S2 N. unfold trade_step. rewrite R, S1, S2.
  destruct (account_info w) as [balance|];
    [|simpl; intuition; subst; reflexivity].
  destruct (iloc_last (closes_of rates)) as [c|];
    [|simpl; intuition; subst; reflexivity].
  destruct (symbol_info w) as [info|], (symbol_info_tick w) as [tick|];
    try (simpl; intuition; subst; reflexivity).
  destruct (pip_value info) as [pv|];
    [|simpl; intuition; subst; reflexivity].
  destruct (lot_size _ _ _ _) as [lot|];
    [|simpl; intuition; subst; reflexivity].
  unfold check_and_place_order, update_daily_loss.
  destruct (N c) as [-> ->].
  simpl; intuition; subst; reflexivity.
Qed.

(** C10: a NaN in the latest SMA or RSI makes both entry conditions
    false, and a pass whose latest SMA or RSI is NaN sends no order; the
    SMA is NaN when fewer than [sma_period] bars came back, and the RSI
    is NaN when the closes of the trailing window are all equal. *)
Theorem C10_nan_indicator_no_order :
  (forall close_price sma rsi,
     is_nan sma || is_nan rsi = true ->
     should_buy close_price sma rsi = false /\
     should_sell close_price sma rsi = false) /\
  (forall cfg s w rates sma rsi,
     copy_rates_from_pos w = Some rates ->
     iloc_last (sma_column (sma_period cfg) (closes_of rates)) = Some sma ->
     iloc_last (rsi_column (rsi_period cfg) (closes_of rates)) = Some rsi ->
     is_nan sma || is_nan rsi = true ->
     forall e, In e (snd (iteration cfg s w)) -> is_order_send e = false) /\
  (forall n rates,
     rates <> [] -> (length rates < n)%nat ->
     iloc_last (sma_column n (closes_of rates)) = Some NaN) /\
  (forall n pre c,
     (0 < n)%nat ->
     iloc_last (rsi_column n (closes_of (pre ++ repeat c (S n)))) = Some NaN).
Proof.
  split; [exact nan_no_signal|]. split; [|split].
  - intros cfg s w rates sma rsi R S1 S2 N e.
    destruct (max_loss_reached cfg (fst (reset_check cfg s w))) eqn:G.
    + rewrite (gate_closed _ _ _ G). simpl. intro I.
      apply in_app_or in I. destruct I as [I|[I|[I|[]]]]; subst; auto.
      apply reset_check_events in I. now subst.
    + rewrite (gate_open _ _ _ G). simpl. intro I.
      apply in_app_or in I. destruct I as [I|I].
      * apply reset_check_events in I. now subst.
      * revert I. apply (trade_step_no_signal _ _ _ rates sma rsi); auto.
        intro c. now apply nan_no_signal.
  - intros n rates N L. apply (latest_short n rates N L).
  - intros n pre c P. apply (flat_tail_rsi pre c n P).
Qed.

Lemma C10_nan_indicator_no_order_witness :
  (should_buy (Fin 1) NaN (Fin 25) = false /\
   should_sell (Fin 1) NaN (Fin 25) = false) /\
  (forall e,
     In e (snd (iteration config (Sample.state 0 1)
                  (Sample.world 1 10 (Some Sample.flat_rates) None))) ->
     is_order_send e = false) /\
  iloc_last (sma_column 50 (closes_of [1; 2; 3])) = Some NaN /\
  iloc_last (rsi_column 14 (closes_of (repeat (11 # 10) 85 ++ repeat (11 # 10) 15)))
  = Some NaN.
Proof.
  split; [|split; [|split]].
  - apply (proj1 C10_nan_indicator_no_order (Fin 1) NaN (Fin 25)). reflexivity.
  - eapply (proj1 (proj2 C10_nan_indicator_no_order) config (Sample.state 0 1)
              (Sample.world 1 10 (Some Sample.flat_rates) None)
              Sample.flat_rates).
    + reflexivity.
    + vm_compute; reflexivity.
    + vm_compute; reflexivity.
    + reflexivity.
  - apply (proj1 (proj2 (proj2 C10_nan_indicator_no_order)) 50%nat [1; 2; 3]).
    + discriminate.
    + simpl. lia.
  - apply (proj2 (proj2 (proj2 C10_nan_indicator_no_order)) 14%nat
             (repeat (11 # 10) 85) (11 # 10)).
    lia.
Defined.

(** * Further properties of the script *)

(** ** The deal-history sum *)

Lemma loss_of_nonneg d : 0 <= loss_of d.
Proof.
  unfold loss_of. destruct (Qlt_bool _ _) eqn:E; [|apply Qle_refl].
  apply Qlt_bool_iff in E. lra.
Qed.

Lemma deal_contribution_nonneg cfg d : 0 <= deal_contribution cfg d.
Proof.
  unfold deal_contribution. destruct (deal_counts cfg d);
    [apply loss_of_nonneg|apply Qle_refl].
Qed.

Lemma add_deal_contribution cfg acc d :
  add_deal cfg acc d == acc + deal_contribution cfg d.
Proof.
  unfold add_deal, deal_contribution. destruct (deal_counts cfg d); ring.
Qed.

Lemma fold_add_deal cfg ds : forall acc,
  fold_left (add_deal cfg) ds acc
  == acc + Qsum (map (deal_contribution cfg) ds).
Proof.
  induction ds as [|d ds IH]; intro acc; simpl.
  - ring.
  - rewrite IH. unfold add_deal, deal_contribution.
    destruct (deal_counts cfg d); ring.
Qed.

Lemma recompute_sum cfg ds :
  recompute_daily_loss cfg (Some ds) == Qsum (map (deal_contribution cfg) ds).
Proof.
  unfold recompute_daily_loss. destruct ds as [|d ds]; [reflexivity|].
  rewrite fold_add_deal. ring.
Qed.


Lemma Qsum_nonneg l : Forall (fun x => 0 <= x) l -> 0 <= Qsum l.
Proof.
  induction 1 as [|x l H F IH]; simpl; [apply Qle_refl|]. lra.
Qed.

Lemma Qsum_zero l :
  Forall (fun x => 0 <= x) l -> (Qsum l == 0 <-> Forall (fun x => x == 0) l).
Proof.
  induction 1 as [|x l H F IH]; simpl.
  - split; [constructor|reflexivity].
  - pose proof (Qsum_nonneg l F) as N. split.
    + intro Z. constructor; [lra|]. apply IH. lra.
    + intro A. inversion A as [|? ? X L]; subst.
      apply IH in L. rewrite X, L. reflexivity.
Qed.




(** X3: the recomputed accumulator is never negative, whatever the
    history (also a missing one), and it is zero exactly when no counted
    deal closed at a loss. *)
Theorem X3_recompute_nonneg_zero cfg :
  (forall history, 0 <= recompute_daily_loss cfg history) /\
  (forall ds,
     recompute_daily_loss cfg (Some ds) == 0 <->
     Forall (fun d => deal_counts cfg d = true -> 0 <= deal_profit d) ds).
Proof.
  assert (N : forall ds, Forall (fun x => 0 <= x) (map (deal_contribution cfg) ds)).
  { intro ds. apply Forall_map, Forall_forall. intros d _.
    apply deal_contribution_nonneg. }
  split.
  - intros [ds|]; [|apply Qle_refl].
    rewrite recompute_sum. apply Qsum_nonneg, N.
  - intro ds. rewrite recompute_sum, (Qsum_zero _ (N ds)), Forall_map.
    split; apply Forall_impl; intros d H.
    + intro C. unfold deal_contribution, loss_of in H. rewrite C in H.
      destruct (Qlt_bool (deal_profit d) 0) eqn:E.
      * apply Qlt_bool_iff in E. lra.
      * now apply Qlt_bool_false_iff in E.
    + unfold deal_contribution, loss_of.
      destruct (deal_counts cfg d); [|reflexivity].
      specialize (H eq_refl).
      destruct (Qlt_bool (deal_profit d) 0) eqn:E; [|reflexivity].
      apply Qlt_bool_iff in E. lra.
Qed.

(** ** Anatomy of one pass *)

(** The request that a signal produces (lines 135-137 and 141-143). *)
Lemma check_and_place_order_cases cfg w lot c sma rsi info tick :
  (should_buy c sma rsi = false /\ should_sell c sma rsi = false /\
   check_and_place_order cfg w lot c sma rsi info tick
   = ([PrintLine MsgNoTrade], true)) \/
  (exists r,
     ((should_buy c sma rsi = true /\
       r = request cfg lot ORDER_TYPE_BUY (ask tick)
             (ask tick - sl_pips cfg * 10 * point info)
             (ask tick + tp_pips cfg * 10 * point info)) \/
      (should_buy c sma rsi = false /\ should_sell c sma rsi = true /\
       r = request cfg lot ORDER_TYPE_SELL (bid tick)
             (bid tick + sl_pips cfg * 10 * point info)
             (bid tick - tp_pips cfg * 10 * point info))) /\
     ((order_send w r = None /\
       check_and_place_order cfg w lot c sma rsi info tick
       = ([CallOrderSend r], false)) \/
      (exists res,
         order_send w r = Some res /\
         check_and_place_order cfg w lot c sma rsi info tick
         = ([CallOrderSend r;
             PrintLine (if Z.eqb (retcode res) TRADE_RETCODE_DONE
                        then MsgTradePlaced (order res)
                        else MsgTradeFailed (retcode res))], true)))).
Proof.
  unfold check_and_place_order, place_trade.
  destruct (should_buy c sma rsi) eqn:B.
  - right. eexists. split; [left; split; reflexivity|].
    destruct (order_send w _) as [res|] eqn:O.
    + right. exists res. split; reflexivity.
    + left. split; reflexivity.
  - destruct (should_sell c sma rsi) eqn:S.
    + right. eexists. split; [right; repeat split; reflexivity|].
      destruct (order_send w _) as [res|] eqn:O.
      * right. exists res. split; reflexivity.
      * left. split; reflexivity.
    + left. auto.
Qed.

Lemma check_and_place_order_quiet cfg w lot c sma rsi info tick e :
  In e (fst (check_and_place_order cfg w lot c sma rsi info tick)) ->
  is_sleep e = false /\ is_history_call e = false.
Proof.
  destruct (check_and_place_order_cases cfg w lot c sma rsi info tick)
    as [[_ [_ ->]]|[r [_ [[_ ->]|[res [_ ->]]]]]]; simpl;
    intuition; subst; reflexivity.
Qed.

(** What the part of the body after the gate leaves behind, by outcome. *)
Lemma trade_step_shape cfg s w :
  match fst (trade_step cfg s w) with
  | Continue s' =>
      s' = {| daily_realized_loss := recompute_daily_loss cfg (history_deals_get w);
              last_reset_date := last_reset_date s |} /\
      exists ev0,
        snd (trade_step cfg s w)
        = ev0 ++ [CallHistoryDealsGet;
                  PrintLine (MsgCurrentDailyLoss
                               (round2 (recompute_daily_loss cfg (history_deals_get w))));
                  sleep_event cfg] /\
        forall e, In e ev0 -> is_sleep e = false /\ is_history_call e = false
  | Break s' =>
      s' = s /\
      forall e, In e (snd (trade_step cfg s w)) ->
                is_sleep e = false /\ is_history_call e = false /\
                is_order_send e = false
  | Raise _ =>
      forall e, In e (snd (trade_step cfg s w)) ->
                is_sleep e = false /\ is_history_call e = false
  end.
Proof.
  unfold trade_step.
  destruct (account_info w) as [balance|];
    [|simpl; split; [reflexivity|]; intuition; subst; reflexivity].
  destruct (copy_rates_from_pos w) as [rates|];
    [|simpl; split; [reflexivity|]; intuition; subst; reflexivity].
  destruct (iloc_last (closes_of rates)) as [c|];
    [|simpl; intuition; subst; reflexivity].
  destruct (iloc_last (sma_column _ _)) as [sma|];
    [|simpl; intuition; subst; reflexivity].
  destruct (iloc_last (rsi_column _ _)) as [rsi|];
    [|simpl; intuition; subst; reflexivity].
  destruct (symbol_info w) as [info|], (symbol_info_tick w) as [tick|];
    try (simpl; split; [reflexivity|]; intuition; subst; reflexivity).
  destruct (pip_value info) as [pv|];
    [|simpl; intuition; subst; reflexivity].
  destruct (lot_size _ _ _ _) as [lot|];
    [|simpl; intuition; subst; reflexivity].
  pose proof (check_and_place_order_quiet cfg w lot c sma rsi info tick) as Q.
  destruct (check_and_place_order cfg w lot c sma rsi info tick) as [ev ok].
  simpl in Q. destruct ok; unfold update_daily_loss; simpl.
  - split; [reflexivity|].
    exists ([CallAccountInfo; CallCopyRates; CallSymbolInfo; CallSymbolInfoTick] ++ ev).
    split; [now rewrite <- app_assoc|].
    intros e I. apply in_app_or in I. destruct I as [I|I]; [|auto].
    simpl in I. intuition; subst; reflexivity.
  - intros e I.
    destruct I as [I|[I|[I|[I|I]]]]; subst; auto.
Qed.

Lemma reset_check_quiet cfg s w e :
  In e (snd (reset_check cfg s w)) ->
  is_sleep e = false /\ is_history_call e = false /\ is_order_send e = false.
Proof.
  intro I. apply reset_check_events in I. subst. auto.
Qed.

Lemma reset_check_date_acc cfg s w :
  (reset_fires cfg s w = true /\
   fst (reset_check cfg s w)
   = {| daily_realized_loss := 0; last_reset_date := today_at_reset w |}) \/
  (reset_fires cfg s w = false /\ fst (reset_check cfg s w) = s).
Proof.
  unfold reset_check. destruct (reset_fires cfg s w); auto.
Qed.

(** ** The accumulator across passes *)

(** X4: a pass that gets through the gate and reaches the end of the
    body replaces the accumulator by the value computed from the deal
    history alone; the previous accumulator plays no part. *)
Theorem X4_full_replace cfg s w s' ev :
  max_loss_reached cfg (fst (reset_check cfg s w)) = false ->
  iteration cfg s w = (Continue s', ev) ->
  daily_realized_loss s' = recompute_daily_loss cfg (history_deals_get w) /\
  In CallHistoryDealsGet ev.
Proof.
  intros G It. rewrite (gate_open _ _ _ G) in It.
  pose proof (trade_step_shape cfg (fst (reset_check cfg s w)) w) as Sh.
  inversion It as [[O E]]. rewrite O in Sh.
  destruct Sh as [-> [ev0 [-> _]]]. split; [reflexivity|].
  apply in_or_app. right. apply in_or_app. right. left. reflexivity.
Qed.

Lemma X4_full_replace_witness :
  daily_realized_loss
    {| daily_realized_loss :=
         recompute_daily_loss config (Some [Sample.own_loss]);
       last_reset_date := 1 |}
  = recompute_daily_loss config (Some [Sample.own_loss]) /\
  In CallHistoryDealsGet
     (snd (iteration config (Sample.state 20 1)
             (Sample.world 1 10 (Some Sample.flat_rates) (Some [Sample.own_loss])))).
Proof.
  apply (X4_full_replace config (Sample.state 20 1)
           (Sample.world 1 10 (Some Sample.flat_rates) (Some [Sample.own_loss]))).
  - reflexivity.
  - vm_compute. reflexivity.
Defined.

Lemma recompute_nonneg cfg history : 0 <= recompute_daily_loss cfg history.
Proof.
  destruct history as [ds|]; [|apply Qle_refl].
  rewrite recompute_sum. apply Qsum_nonneg, Forall_map, Forall_forall.
  intros d _. apply deal_contribution_nonneg.
Qed.

Lemma iteration_keeps_nonneg cfg s w s' :
  0 <= daily_realized_loss s ->
  fst (iteration cfg s w) = Continue s' \/ fst (iteration cfg s w) = Break s' ->
  0 <= daily_realized_loss s'.
Proof.
  intros N H.
  assert (N1 : 0 <= daily_realized_loss (fst (reset_check cfg s w))).
  { destruct (reset_check_date_acc cfg s w) as [[_ ->]|[_ ->]];
      [apply Qle_refl|exact N]. }
  destruct (max_loss_reached cfg (fst (reset_check cfg s w))) eqn:G.
  - rewrite (gate_closed _ _ _ G) in H. simpl in H.
    destruct H as [H|H]; inversion H; subst; exact N1.
  - rewrite (gate_open _ _ _ G) in H. simpl in H.
    pose proof (trade_step_shape cfg (fst (reset_check cfg s w)) w) as Sh.
    destruct H as [H|H]; rewrite H in Sh.
    + destruct Sh as [-> _]. simpl. apply recompute_nonneg.
    + destruct Sh as [-> _]. exact N1.
Qed.

(** X5: the accumulator never becomes negative: from a non-negative
    accumulator (the script starts at 0) every state in which a run of
    the loop stands, after any number of passes, has a non-negative
    accumulator. *)
Theorem X5_accumulator_nonneg cfg ws : forall s s',
  0 <= daily_realized_loss s ->
  snd (run cfg s ws) = Continue s' \/ snd (run cfg s ws) = Break s' ->
  0 <= daily_realized_loss s'.
Proof.
  induction ws as [|w ws IH]; intros s s' N H.
  - simpl in H. destruct H as [H|H]; inversion H; subst; exact N.
  - simpl in H.
    pose proof (iteration_keeps_nonneg cfg s w) as K.
    destruct (iteration cfg s w) as [o ev]. simpl in K.
    destruct o as [s1|s1|e].
    + destruct (run cfg s1 ws) as [tr o'] eqn:R. simpl in H.
      apply (IH s1 s'); [apply K; auto|]. now rewrite R.
    + simpl in H. destruct H as [H|H]; inversion H; subst. apply K; auto.
    + simpl in H. destruct H as [H|H]; discriminate.
Qed.

Lemma X5_accumulator_nonneg_witness :
  0 <= daily_realized_loss {| daily_realized_loss := 75; last_reset_date := 1 |}.
Proof.
  apply (X5_accumulator_nonneg config
           [Sample.world 1 10 (Some Sample.flat_rates) (Some [Sample.own_loss])]
           (initial_state 1)).
  - apply Qle_refl.
  - left. vm_compute. reflexivity.
Defined.

(** X6: once the accumulator has reached the limit, the loop stays shut
    for as long as the reset condition is false: every pass only prints
    and sleeps, no terminal call is made, no order is sent and the
    accumulator is not refreshed, whatever the deal history says. *)
Theorem X6_gate_stays_closed cfg s ws :
  daily_max_loss cfg <= daily_realized_loss s ->
  Forall (no_reset_at cfg (last_reset_date s)) ws ->
  run cfg s ws
  = (map (fun w => (w, [PrintLine MsgMaxLossReached; sleep_event cfg])) ws,
     Continue s).
Proof.
  intros G F. induction F as [|w ws N F IH]; [reflexivity|].
  assert (R : reset_fires cfg s w = false).
  { unfold reset_fires. destruct N as [N|N].
    - rewrite N, Z.eqb_refl. reflexivity.
    - apply andb_false_iff. right. apply Z.leb_gt. exact N. }
  assert (RC : reset_check cfg s w = (s, [])).
  { unfold reset_check. now rewrite R. }
  assert (M : max_loss_reached cfg (fst (reset_check cfg s w)) = true).
  { rewrite RC. apply Qle_bool_iff. exact G. }
  pose proof (gate_closed _ _ _ M) as It. rewrite RC in It. simpl in It.
  rewrite (run_cons_continue _ _ _ _ _ _ It), IH. reflexivity.
Qed.

Lemma X6_gate_stays_closed_witness :
  run config (Sample.state 60 1)
    [Sample.world 1 10 (Some Sample.pullback_rates) (Some []);
     Sample.world 1 11 (Some Sample.pullback_rates) (Some [])]
  = (map (fun w => (w, [PrintLine MsgMaxLossReached; sleep_event config]))
       [Sample.world 1 10 (Some Sample.pullback_rates) (Some []);
        Sample.world 1 11 (Some Sample.pullback_rates) (Some [])],
     Continue (Sample.state 60 1)).
Proof.
  apply (X6_gate_stays_closed config (Sample.state 60 1)
           [Sample.world 1 10 (Some Sample.pullback_rates) (Some []);
            Sample.world 1 11 (Some Sample.pullback_rates) (Some [])]).
  - apply Qle_bool_iff. reflexivity.
  - repeat constructor.
Defined.

(** ** Orders *)

(** A pass that sends an order has passed the gate, got every fetch and a
    lot, and has run the dispatch of lines 134-147. *)
Lemma iteration_order_origin cfg s w r :
  In (CallOrderSend r) (snd (iteration cfg s w)) ->
  max_loss_reached cfg (fst (reset_check cfg s w)) = false /\
  exists balance rates c sma rsi info tick pv lot,
    account_info w = Some balance /\
    copy_rates_from_pos w = Some rates /\
    iloc_last (closes_of rates) = Some c /\
    iloc_last (sma_column (sma_period cfg) (closes_of rates)) = Some sma /\
    iloc_last (rsi_column (rsi_period cfg) (closes_of rates)) = Some rsi /\
    symbol_info w = Some info /\ symbol_info_tick w = Some tick /\
    pip_value info = Some pv /\
    lot_size (risk_percent cfg) (sl_pips cfg) balance pv = Some lot /\
    In (CallOrderSend r)
       (fst (check_and_place_order cfg w lot c sma rsi info tick)) /\
    iteration cfg s w
    = (if snd (check_and_place_order cfg w lot c sma rsi info tick)
       then Continue (fst (update_daily_loss cfg (fst (reset_check cfg s w)) w))
       else Raise AttributeError,
       snd (reset_check cfg s w)
       ++ [CallAccountInfo; CallCopyRates; CallSymbolInfo; CallSymbolInfoTick]
       ++ fst (check_and_place_order cfg w lot c sma rsi info tick)
       ++ (if snd (check_and_place_order cfg w lot c sma rsi info tick)
           then snd (update_daily_loss cfg (fst (reset_check cfg s w)) w)
           else [])).
Proof.
  intro I.
  destruct (max_loss_reached cfg (fst (reset_check cfg s w))) eqn:G.
  { rewrite (gate_closed _ _ _ G) in I. simpl in I.
    apply in_app_or in I. destruct I as [I|[I|[I|[]]]]; try discriminate.
    apply reset_check_events in I. discriminate. }
  split; [reflexivity|].
  rewrite (gate_open _ _ _ G) in *. simpl in I.
  apply in_app_or in I. destruct I as [I|I];
    [apply reset_check_events in I; discriminate|].
  revert I. generalize (fst (reset_check cfg s w)) as s1. intro s1.
  unfold trade_step.
  destruct (account_info w) as [balance|] eqn:E1;
    [|simpl; intuition discriminate].
  destruct (copy_rates_from_pos w) as [rates|] eqn:E2;
    [|simpl; intuition discriminate].
  destruct (iloc_last (closes_of rates)) as [c|] eqn:E3;
    [|simpl; intuition discriminate].
  destruct (iloc_last (sma_column _ _)) as [sma|] eqn:E4;
    [|simpl; intuition discriminate].
  destruct (iloc_last (rsi_column _ _)) as [rsi|] eqn:E5;
    [|simpl; intuition discriminate].
  destruct (symbol_info w) as [info|] eqn:E6,
           (symbol_info_tick w) as [tick|] eqn:E7;
    try (simpl; intuition discriminate).
  destruct (pip_value info) as [pv|] eqn:E8;
    [|simpl; intuition discriminate].
  destruct (lot_size _ _ _ _) as [lot|] eqn:L;
    [|simpl; intuition discriminate].
  intro I. exists balance, rates, c, sma, rsi, info, tick, pv, lot.
  repeat (split; [assumption || reflexivity|]).
  destruct (check_and_place_order cfg w lot c sma rsi info tick) as [ev ok].
  unfold update_daily_loss in *. simpl in *.
  destruct ok; simpl in *.
  - split; [|reflexivity].
    destruct I as [I|[I|[I|[I|I]]]]; try discriminate.
    apply in_app_or in I. destruct I as [I|I]; [exact I|].
    simpl in I. intuition discriminate.
  - rewrite app_nil_r. split; [|reflexivity].
    destruct I as [I|[I|[I|[I|I]]]]; try discriminate. exact I.
Qed.

Lemma order_from_dispatch cfg w lot c sma rsi info tick r :
  In (CallOrderSend r)
     (fst (check_and_place_order cfg w lot c sma rsi info tick)) ->
  (should_buy c sma rsi = true /\
   r = request cfg lot ORDER_TYPE_BUY (ask tick)
         (ask tick - sl_pips cfg * 10 * point info)
         (ask tick + tp_pips cfg * 10 * point info)) \/
  (should_buy c sma rsi = false /\ should_sell c sma rsi = true /\
   r = request cfg lot ORDER_TYPE_SELL (bid tick)
         (bid tick + sl_pips cfg * 10 * point info)
         (bid tick - tp_pips cfg * 10 * point info)).
Proof.
  destruct (check_and_place_order_cases cfg w lot c sma rsi info tick)
    as [[_ [_ ->]]|[r0 [Sig [[_ ->]|[res [_ ->]]]]]]; simpl; intro I.
  - intuition discriminate.
  - destruct I as [I|[]]. inversion I; subst. exact Sig.
  - destruct I as [I|[I|[]]]; [|discriminate]. inversion I; subst. exact Sig.
Qed.

(** X7: every order the loop sends is a market order on the configured
    symbol, tagged with the strategy's magic number, with deviation 5,
    GTC and IOC, of type BUY or SELL, and for a volume of at least 0.01
    lot. *)
Theorem X7_order_request_fields cfg s w r :
  In (CallOrderSend r) (snd (iteration cfg s w)) ->
  req_action r = TRADE_ACTION_DEAL /\
  req_symbol r = symbol cfg /\
  req_magic r = magic_number cfg /\
  req_deviation r = 5%Z /\
  req_type_time r = ORDER_TIME_GTC /\
  req_type_filling r = ORDER_FILLING_IOC /\
  (req_type r = ORDER_TYPE_BUY \/ req_type r = ORDER_TYPE_SELL) /\
  1 # 100 <= req_volume r.
Proof.
  intro I. apply iteration_order_origin in I.
  destruct I as [_ [balance [rates [c [sma [rsi [info [tick [pv [lot
                   [_ [_ [_ [_ [_ [_ [_ [_ [L [I _]]]]]]]]]]]]]]]]]]]].
  apply lot_size_inv in L. destruct L as [_ L].
  apply order_from_dispatch in I.
  destruct I as [[_ ->]|[_ [_ ->]]]; simpl; rewrite L;
    repeat split; auto; apply clamp_lot_min.
Qed.

Lemma X7_order_request_fields_witness :
  req_action Sample.buy_request = TRADE_ACTION_DEAL /\
  req_symbol Sample.buy_request = symbol config /\
  req_magic Sample.buy_request = magic_number config /\
  req_deviation Sample.buy_request = 5%Z /\
  req_type_time Sample.buy_request = ORDER_TIME_GTC /\
  req_type_filling Sample.buy_request = ORDER_FILLING_IOC /\
  (req_type Sample.buy_request = ORDER_TYPE_BUY \/
   req_type Sample.buy_request = ORDER_TYPE_SELL) /\
  1 # 100 <= req_volume Sample.buy_request.
Proof.
  apply (X7_order_request_fields config (Sample.state 0 1)
           (Sample.world 1 10 (Some Sample.pullback_rates) None)
           Sample.buy_request).
  vm_compute. do 4 right. left. reflexivity.
Defined.

(** X8: with positive pip distances and a positive point, a BUY order is
    priced at the ask with its stop-loss below and its take-profit above
    the entry, and a SELL order at the bid with its take-profit below and
    its stop-loss above the entry. *)
Theorem X8_order_bracket cfg s w r info tick :
  In (CallOrderSend r) (snd (iteration cfg s w)) ->
  symbol_info w = Some info -> symbol_info_tick w = Some tick ->
  0 < sl_pips cfg -> 0 < tp_pips cfg -> 0 < point info ->
  (req_type r = ORDER_TYPE_BUY /\ req_price r = ask tick /\
   req_sl r < req_price r /\ req_price r < req_tp r) \/
  (req_type r = ORDER_TYPE_SELL /\ req_price r = bid tick /\
   req_tp r < req_price r /\ req_price r < req_sl r).
Proof.
  intros I Si Ti S T P. apply iteration_order_origin in I.
  destruct I as [_ [balance [rates [c [sma [rsi [info' [tick' [pv [lot
                   [_ [_ [_ [_ [_ [Si' [Ti' [_ [_ [I _]]]]]]]]]]]]]]]]]]]].
  rewrite Si in Si'. rewrite Ti in Ti'. inversion Si'; inversion Ti'; subst.
  apply order_from_dispatch in I.
  assert (A : 0 < sl_pips cfg * 10 * point info') by nra.
  assert (B : 0 < tp_pips cfg * 10 * point info') by nra.
  destruct I as [[_ ->]|[_ [_ ->]]]; [left|right]; simpl;
    repeat split; lra.
Qed.

Lemma X8_order_bracket_witness :
  (req_type Sample.buy_request = ORDER_TYPE_BUY /\
   req_price Sample.buy_request = ask Sample.quote /\
   req_sl Sample.buy_request < req_price Sample.buy_request /\
   req_price Sample.buy_request < req_tp Sample.buy_request) \/
  (req_type Sample.buy_request = ORDER_TYPE_SELL /\
   req_price Sample.buy_request = bid Sample.quote /\
   req_tp Sample.buy_request < req_price Sample.buy_request /\
   req_price Sample.buy_request < req_sl Sample.buy_request).
Proof.
  apply (X8_order_bracket config (Sample.state 0 1)
           (Sample.world 1 10 (Some Sample.pullback_rates) None)
           Sample.buy_request Sample.eurusd Sample.quote).
  - vm_compute. do 4 right. left. reflexivity.
  - reflexivity.
  - reflexivity.
  - reflexivity.
  - reflexivity.
  - reflexivity.
Defined.

Lemma filter_reset_check cfg s w :
  filter is_order_send (snd (reset_check cfg s w)) = [].
Proof. unfold reset_check. now destruct (reset_fires cfg s w). Qed.

(** X9: a pass sends at most one order, and an order is sent right after
    the four fetches of that same pass (account, rates, symbol info,
    tick). *)
Theorem X9_one_order_after_fetches cfg s w :
  (length (filter is_order_send (snd (iteration cfg s w))) <= 1)%nat /\
  forall r,
    In (CallOrderSend r) (snd (iteration cfg s w)) ->
    exists post,
      snd (iteration cfg s w)
      = snd (reset_check cfg s w)
        ++ [CallAccountInfo; CallCopyRates; CallSymbolInfo; CallSymbolInfoTick;
            CallOrderSend r] ++ post.
Proof.
  assert (O : forall r,
             In (CallOrderSend r) (snd (iteration cfg s w)) ->
             exists post,
               snd (iteration cfg s w)
               = snd (reset_check cfg s w)
                 ++ [CallAccountInfo; CallCopyRates; CallSymbolInfo;
                     CallSymbolInfoTick; CallOrderSend r] ++ post /\
               filter is_order_send post = []).
  { intros r I. apply iteration_order_origin in I.
    destruct I as [_ [balance [rates [c [sma [rsi [info [tick [pv [lot
                     [_ [_ [_ [_ [_ [_ [_ [_ [_ [I E]]]]]]]]]]]]]]]]]]]].
    rewrite E. clear E. unfold update_daily_loss.
    destruct (check_and_place_order_cases cfg w lot c sma rsi info tick)
      as [[_ [_ H]]|[r0 [_ [[_ H]|[res [_ H]]]]]]; rewrite H in *; simpl in *.
    - intuition discriminate.
    - destruct I as [I|[]]. inversion I; subst. exists []. auto.
    - destruct I as [I|[I|[]]]; [|discriminate]. inversion I; subst.
      eexists. split; reflexivity. }
  split; [|intros r I; destruct (O r I) as [post [E _]]; eauto].
  destruct (filter is_order_send (snd (iteration cfg s w))) as [|e l] eqn:F;
    [simpl; lia|].
  assert (I : In e (filter is_order_send (snd (iteration cfg s w))))
    by (rewrite F; now left).
  apply filter_In in I. destruct I as [I Oe].
  destruct e as [m|z| | | | |r| |]; try discriminate.
  destruct (O r I) as [post [E P]].
  rewrite E, filter_app, filter_reset_check in F. simpl in F.
  rewrite P in F. inversion F. simpl. lia.
Qed.

Lemma X9_one_order_after_fetches_witness :
  exists post,
    snd (iteration config (Sample.state 60 1)
           (Sample.world 2 10 (Some Sample.pullback_rates) None))
    = snd (reset_check config (Sample.state 60 1)
             (Sample.world 2 10 (Some Sample.pullback_rates) None))
      ++ [CallAccountInfo; CallCopyRates; CallSymbolInfo; CallSymbolInfoTick;
          CallOrderSend Sample.buy_request] ++ post.
Proof.
  apply (proj2 (X9_one_order_after_fetches config (Sample.state 60 1)
                  (Sample.world 2 10 (Some Sample.pullback_rates) None))
           Sample.buy_request).
  vm_compute. do 5 right. left. reflexivity.
Defined.

(** X10: what becomes of a pass that sent an order.  When the terminal
    answers, with whatever return code, the pass logs the ticket or the
    code, refreshes the accumulator from the deal history and the loop
    goes on: a rejected order is not fatal.  When the terminal answers
    [None], reading the return code raises and the pass neither refreshes
    the accumulator nor sleeps. *)
Theorem X10_order_result cfg s w r :
  In (CallOrderSend r) (snd (iteration cfg s w)) ->
  (order_send w r = None /\
   fst (iteration cfg s w) = Raise AttributeError /\
   forall e, In e (snd (iteration cfg s w)) ->
             is_sleep e = false /\ is_history_call e = false) \/
  (exists res s',
     order_send w r = Some res /\
     fst (iteration cfg s w) = Continue s' /\
     daily_realized_loss s' = recompute_daily_loss cfg (history_deals_get w) /\
     In (PrintLine (if Z.eqb (retcode res) TRADE_RETCODE_DONE
                    then MsgTradePlaced (order res)
                    else MsgTradeFailed (retcode res)))
        (snd (iteration cfg s w))).
Proof.
  intro I. apply iteration_order_origin in I.
  destruct I as [_ [balance [rates [c [sma [rsi [info [tick [pv [lot
                   [_ [_ [_ [_ [_ [_ [_ [_ [_ [I E]]]]]]]]]]]]]]]]]]]].
  rewrite E. clear E. unfold update_daily_loss.
  destruct (check_and_place_order_cases cfg w lot c sma rsi info tick)
    as [[_ [_ H]]|[r0 [_ [[N H]|[res [S H]]]]]]; rewrite H in *; simpl in *.
  - intuition discriminate.
  - destruct I as [I|[]]. inversion I; subst. left.
    split; [exact N|]. split; [reflexivity|].
    intros e J. apply in_app_or in J. destruct J as [J|J].
    + apply reset_check_quiet in J. tauto.
    + simpl in J. intuition; subst; reflexivity.
  - destruct I as [I|[I|[]]]; [|discriminate]. inversion I; subst. right.
    exists res. eexists. split; [exact S|]. split; [reflexivity|].
    split; [reflexivity|].
    apply in_or_app. right. do 5 right. left. reflexivity.
Qed.

Lemma X10_order_result_witness :
  (order_send (Sample.world 1 10 (Some Sample.pullback_rates) None)
     Sample.buy_request = None /\
   fst (iteration config (Sample.state 0 1)
          (Sample.world 1 10 (Some Sample.pullback_rates) None))
   = Raise AttributeError /\
   forall e,
     In e (snd (iteration config (Sample.state 0 1)
                  (Sample.world 1 10 (Some Sample.pullback_rates) None))) ->
     is_sleep e = false /\ is_history_call e = false) \/
  (exists res s',
     order_send (Sample.world 1 10 (Some Sample.pullback_rates) None)
       Sample.buy_request = Some res /\
     fst (iteration config (Sample.state 0 1)
            (Sample.world 1 10 (Some Sample.pullback_rates) None))
     = Continue s' /\
     daily_realized_loss s'
     = recompute_daily_loss config
         (history_deals_get (Sample.world 1 10 (Some Sample.pullback_rates) None)) /\
     In (PrintLine (if Z.eqb (retcode res) TRADE_RETCODE_DONE
                    then MsgTradePlaced (order res)
                    else MsgTradeFailed (retcode res)))
        (snd (iteration config (Sample.state 0 1)
                (Sample.world 1 10 (Some Sample.pullback_rates) None)))).
Proof.
  apply (X10_order_result config (Sample.state 0 1)
           (Sample.world 1 10 (Some Sample.pullback_rates) None)
           Sample.buy_request).
  vm_compute. do 4 right. left. reflexivity.
Defined.

(** ** Sleeping, leaving the loop and shutting down *)

(** X11: a pass after which the loop goes on sleeps exactly once, for
    [loop_interval_minutes * 60] seconds, as its last action; a pass that
    leaves the loop, by [break] or by an exception, does not sleep. *)
Theorem X11_sleep_once_at_end cfg s w :
  match fst (iteration cfg s w) with
  | Continue _ =>
      exists ev0,
        snd (iteration cfg s w) = ev0 ++ [Sleep (loop_interval_minutes cfg * 60)] /\
        forall e, In e ev0 -> is_sleep e = false
  | _ => forall e, In e (snd (iteration cfg s w)) -> is_sleep e = false
  end.
Proof.
  destruct (max_loss_reached cfg (fst (reset_check cfg s w))) eqn:G.
  - rewrite (gate_closed _ _ _ G). simpl.
    exists (snd (reset_check cfg s w) ++ [PrintLine MsgMaxLossReached]).
    split; [now rewrite <- app_assoc|].
    intros e I. apply in_app_or in I. destruct I as [I|[I|[]]].
    + apply reset_check_quiet in I. tauto.
    + now subst.
  - rewrite (gate_open _ _ _ G). simpl.
    pose proof (trade_step_shape cfg (fst (reset_check cfg s w)) w) as Sh.
    destruct (fst (trade_step cfg (fst (reset_check cfg s w)) w)) as [s'|s'|x].
    + destruct Sh as [_ [ev0 [E Q]]]. rewrite E.
      exists (snd (reset_check cfg s w) ++ ev0
              ++ [CallHistoryDealsGet;
                  PrintLine (MsgCurrentDailyLoss
                    (round2 (recompute_daily_loss cfg (history_deals_get w))))]).
      split; [now rewrite <- !app_assoc|].
      intros e I. apply in_app_or in I. destruct I as [I|I].
      * apply reset_check_quiet in I. tauto.
      * apply in_app_or in I. destruct I as [I|[I|[I|[]]]]; subst; auto.
        apply Q in I. tauto.
    + destruct Sh as [_ Q]. intros e I. apply in_app_or in I.
      destruct I as [I|I]; [apply reset_check_quiet in I|apply Q in I]; tauto.
    + intros e I. apply in_app_or in I.
      destruct I as [I|I]; [apply reset_check_quiet in I|apply Sh in I]; tauto.
Qed.

Lemma check_and_place_order_no_shutdown cfg w lot c sma rsi info tick :
  ~ In CallShutdown (fst (check_and_place_order cfg w lot c sma rsi info tick)).
Proof.
  destruct (check_and_place_order_cases cfg w lot c sma rsi info tick)
    as [[_ [_ ->]]|[r [_ [[_ ->]|[res [_ ->]]]]]]; simpl;
    intuition discriminate.
Qed.

Lemma iteration_no_shutdown cfg s w : ~ In CallShutdown (snd (iteration cfg s w)).
Proof.
  intro I.
  destruct (max_loss_reached cfg (fst (reset_check cfg s w))) eqn:G.
  - rewrite (gate_closed _ _ _ G) in I. simpl in I.
    apply in_app_or in I. destruct I as [I|[I|[I|[]]]]; try discriminate.
    apply reset_check_events in I. discriminate.
  - rewrite (gate_open _ _ _ G) in I. simpl in I.
    apply in_app_or in I. destruct I as [I|I];
      [apply reset_check_events in I; discriminate|].
    revert I. unfold trade_step, update_daily_loss.
    repeat break_match; simpl; try (intuition discriminate);
      intros [I|[I|[I|[I|I]]]]; try discriminate;
      repeat (apply in_app_or in I; destruct I as [I|I]);
      try (simpl in I; intuition discriminate);
      match goal with
      | H : check_and_place_order ?a ?b ?c ?d ?e ?f ?g ?h = (?ev, _) |- _ =>
          apply (check_and_place_order_no_shutdown a b c d e f g h);
          rewrite H; exact I
      end.
Qed.

Lemma run_no_shutdown cfg ws : forall s,
  ~ In CallShutdown (concat (map snd (fst (run cfg s ws)))).
Proof.
  induction ws as [|w ws IH]; intros s I; [exact I|].
  simpl in I. pose proof (iteration_no_shutdown cfg s w) as N.
  destruct (iteration cfg s w) as [o ev]. simpl in N.
  destruct o as [s'| |].
  - pose proof (IH s') as N'. destruct (run cfg s' ws) as [tr o'].
    simpl in *. apply in_app_or in I. tauto.
  - simpl in I. rewrite app_nil_r in I. tauto.
  - simpl in I. rewrite app_nil_r in I. tauto.
Qed.

Lemma script_shutdown_iff cfg s ws :
  In CallShutdown (script cfg s ws) <-> exists s', snd (run cfg s ws) = Break s'.
Proof.
  unfold script. pose proof (run_no_shutdown cfg ws s) as N.
  destruct (run cfg s ws) as [tr o]. simpl in *.
  split.
  - intro I. apply in_app_or in I. destruct I as [I|I]; [tauto|].
    destruct o; simpl in I; try tauto. eauto.
  - intros [s' ->]. apply in_or_app. right. now left.
Qed.

(** X12: [mt5.shutdown()] is called exactly when the loop was left by
    [break], and then it is the very last action and happens once; a run
    ended by an uncaught exception never reaches it. *)
Theorem X12_shutdown_after_break cfg s ws :
  match snd (run cfg s ws) with
  | Break _ =>
      exists ev, script cfg s ws = ev ++ [CallShutdown] /\ ~ In CallShutdown ev
  | _ => ~ In CallShutdown (script cfg s ws)
  end.
Proof.
  pose proof (run_no_shutdown cfg ws s) as N.
  pose proof (script_shutdown_iff cfg s ws) as Iff.
  unfold script in *. destruct (run cfg s ws) as [tr o]. simpl in *.
  destruct o as [s'|s'|e].
  - intro I. apply Iff in I. destruct I as [x I]. discriminate.
  - eexists. split; [reflexivity|exact N].
  - intro I. apply Iff in I. destruct I as [x I]. discriminate.
Qed.

(** X13: the uncaught exceptions of a pass that got through the gate
    with an account.  An empty rates array raises IndexError after two
    fetches only; with a bar and with symbol information and a tick, a
    zero tick size raises ZeroDivisionError before any order is sent.
    Conversely a pass ends in IndexError only on an empty rates array. *)
Theorem X13_uncaught_exceptions cfg s w :
  (forall balance,
     max_loss_reached cfg (fst (reset_check cfg s w)) = false ->
     account_info w = Some balance ->
     copy_rates_from_pos w = Some [] ->
     iteration cfg s w
     = (Raise IndexError,
        snd (reset_check cfg s w) ++ [CallAccountInfo; CallCopyRates])) /\
  (forall balance rates info tick,
     max_loss_reached cfg (fst (reset_check cfg s w)) = false ->
     account_info w = Some balance ->
     copy_rates_from_pos w = Some rates -> rates <> [] ->
     symbol_info w = Some info -> symbol_info_tick w = Some tick ->
     trade_tick_size info == 0 ->
     iteration cfg s w
     = (Raise ZeroDivisionError,
        snd (reset_check cfg s w)
        ++ [CallAccountInfo; CallCopyRates; CallSymbolInfo; CallSymbolInfoTick])) /\
  (fst (iteration cfg s w) = Raise IndexError ->
   copy_rates_from_pos w = Some []).
Proof.
  split; [|split].
  - intros balance G A R. rewrite (gate_open _ _ _ G).
    unfold trade_step. rewrite A, R. reflexivity.
  - intros balance rates info tick G A R N Si Ti Z.
    rewrite (gate_open _ _ _ G). unfold trade_step. rewrite A, R.
    apply nonempty_length in N.
    rewrite !iloc_last_nth
      by (apply nonempty_length;
          rewrite ?sma_column_length, ?rsi_column_length, closes_of_length;
          exact N).
    rewrite Si, Ti. unfold pip_value.
    apply Qeq_bool_iff in Z. rewrite Z. reflexivity.
  - destruct (max_loss_reached cfg (fst (reset_check cfg s w))) eqn:G.
    + rewrite (gate_closed _ _ _ G). discriminate.
    + rewrite (gate_open _ _ _ G). simpl. unfold trade_step.
      destruct (account_info w); [|discriminate].
      destruct (copy_rates_from_pos w) as [rates|]; [|discriminate].
      destruct rates as [|r0 rates]; [reflexivity|].
      rewrite !iloc_last_nth
        by (apply nonempty_length;
            rewrite ?sma_column_length, ?rsi_column_length, closes_of_length;
            simpl; lia).
      unfold update_daily_loss.
      repeat break_match; simpl; discriminate.
Qed.

Lemma X13_uncaught_exceptions_witness :
  iteration config (Sample.state 0 1) (Sample.world 1 10 (Some []) None)
  = (Raise IndexError,
     snd (reset_check config (Sample.state 0 1)
            (Sample.world 1 10 (Some []) None))
     ++ [CallAccountInfo; CallCopyRates]) /\
  iteration config (Sample.state 0 1) Sample.broken_world
  = (Raise ZeroDivisionError,
     snd (reset_check config (Sample.state 0 1) Sample.broken_world)
     ++ [CallAccountInfo; CallCopyRates; CallSymbolInfo; CallSymbolInfoTick]) /\
  copy_rates_from_pos (Sample.world 1 10 (Some []) None) = Some [].
Proof.
  split; [|split].
  - apply (proj1 (X13_uncaught_exceptions config (Sample.state 0 1)
                    (Sample.world 1 10 (Some []) None)) 10000);
      reflexivity.
  - apply (proj1 (proj2 (X13_uncaught_exceptions config (Sample.state 0 1)
                           Sample.broken_world))
             10000 Sample.flat_rates Sample.broken_symbol Sample.quote);
      try reflexivity.
    discriminate.
  - apply (proj2 (proj2 (X13_uncaught_exceptions config (Sample.state 0 1)
                           (Sample.world 1 10 (Some []) None)))).
    reflexivity.
Defined.

(** ** Start of the script *)

Lemma in_map_body x l : In (Body x) (map Body l) <-> In x l.
Proof.
  rewrite in_map_iff. split.
  - intros [y [E I]]. inversion E. now subst.
  - intro I. eauto.
Qed.

(** X14: orders are sent only when both [mt5.initialize()] and
    [mt5.symbol_select] succeeded; [mt5.shutdown()] is called exactly
    when the terminal was initialised and either the symbol could not be
    selected or the loop was left by [break]; after a failed
    initialisation the terminal is asked for nothing but the last
    error. *)
Theorem X14_program_start initialize symbol_select cfg today ws :
  (forall r,
     In (Body (CallOrderSend r)) (program initialize symbol_select cfg today ws) ->
     initialize = true /\ symbol_select = true) /\
  (In (Body CallShutdown) (program initialize symbol_select cfg today ws) <->
   initialize = true /\
   (symbol_select = false \/
    exists s', snd (run cfg (initial_state today) ws) = Break s')) /\
  (initialize = false ->
   forall e, In e (program initialize symbol_select cfg today ws) ->
             e = CallInitialize \/ e = CallLastError \/
             e = Announce MsgInitializeFailed \/ e = QuitProcess).
Proof.
  unfold program.
  destruct initialize, symbol_select; simpl; (split; [|split]).
  - auto.
  - split.
    + intros [I|[I|[I|I]]]; try discriminate.
      apply in_map_body, script_shutdown_iff in I. auto.
    + intros [_ [H|H]]; [discriminate|].
      do 3 right. apply in_map_body, script_shutdown_iff. exact H.
  - discriminate.
  - intros r I. intuition discriminate.
  - split; [auto|]. intros _. do 3 right. left. reflexivity.
  - discriminate.
  - intros r I. intuition discriminate.
  - split; [intuition discriminate|]. intros [H _]. discriminate.
  - intros _ e I. intuition.
  - intros r I. intuition discriminate.
  - split; [intuition discriminate|]. intros [H _]. discriminate.
  - intros _ e I. intuition.
Qed.

Lemma X14_program_start_witness :
  QuitProcess = CallInitialize \/ QuitProcess = CallLastError \/
  QuitProcess = Announce MsgInitializeFailed \/ QuitProcess = QuitProcess.
Proof.
  apply (proj2 (proj2 (X14_program_start false true config 1
                         [Sample.world 1 10 (Some Sample.pullback_rates) None]))).
  - reflexivity.
  - simpl. do 3 right. left. reflexivity.
Defined.

(** ** The gate against the configuration *)

(** X15: with a positive daily limit, a pass in which the daily reset
    runs always gets through the gate: it goes on to ask for the account,
    whatever the accumulator was before. *)
Theorem X15_reset_reopens_gate cfg s w :
  0 < daily_max_loss cfg ->
  reset_fires cfg s w = true ->
  iteration cfg s w
  = (fst (trade_step cfg
            {| daily_realized_loss := 0; last_reset_date := today_at_reset w |} w),
     PrintLine MsgDailyLossReset
     :: snd (trade_step cfg
               {| daily_realized_loss := 0; last_reset_date := today_at_reset w |} w)) /\
  exists rest,
    snd (iteration cfg s w)
    = PrintLine MsgDailyLossReset :: CallAccountInfo :: rest.
Proof.
  intros P F.
  assert (RC : reset_check cfg s w
               = ({| daily_realized_loss := 0; last_reset_date := today_at_reset w |},
                  [PrintLine MsgDailyLossReset]))
    by (unfold reset_check; now rewrite F).
  assert (G : max_loss_reached cfg (fst (reset_check cfg s w)) = false).
  { rewrite RC. unfold max_loss_reached. simpl.
    destruct (Qle_bool (daily_max_loss cfg) 0) eqn:E; [|reflexivity].
    apply Qle_bool_iff in E. lra. }
  rewrite (gate_open _ _ _ G), RC. simpl. split; [reflexivity|].
  unfold trade_step, update_daily_loss.
  repeat break_match; simpl; eauto.
Qed.

Lemma X15_reset_reopens_gate_witness :
  exists rest,
    snd (iteration config (Sample.state 60 1)
           (Sample.world 2 10 (Some Sample.pullback_rates) None))
    = PrintLine MsgDailyLossReset :: CallAccountInfo :: rest.
Proof.
  apply (X15_reset_reopens_gate config (Sample.state 60 1)
           (Sample.world 2 10 (Some Sample.pullback_rates) None));
    reflexivity.
Defined.

(** X16: with a daily limit that is zero or negative the loop never
    trades: from a non-negative accumulator no pass of any run asks for
    the account or sends an order. *)
Theorem X16_nonpositive_limit_never_trades cfg ws : forall s,
  daily_max_loss cfg <= 0 ->
  0 <= daily_realized_loss s ->
  forall e, In e (concat (map snd (fst (run cfg s ws)))) ->
            is_order_send e = false /\ e <> CallAccountInfo.
Proof.
  induction ws as [|w ws IH]; intros s M N e I; [destruct I|].
  assert (N1 : 0 <= daily_realized_loss (fst (reset_check cfg s w))).
  { destruct (reset_check_date_acc cfg s w) as [[_ ->]|[_ ->]];
      [apply Qle_refl|exact N]. }
  assert (G : max_loss_reached cfg (fst (reset_check cfg s w)) = true)
    by (apply Qle_bool_iff; lra).
  pose proof (gate_closed _ _ _ G) as It.
  rewrite (run_cons_continue _ _ _ _ _ _ It) in I. simpl in I.
  apply in_app_or in I. destruct I as [I|I].
  - apply in_app_or in I. destruct I as [I|[I|[I|[]]]];
      try (subst; split; [reflexivity|discriminate]).
    apply reset_check_events in I. subst. split; [reflexivity|discriminate].
  - apply (IH (fst (reset_check cfg s w))); assumption.
Qed.

Lemma X16_nonpositive_limit_never_trades_witness :
  is_order_send (PrintLine MsgMaxLossReached) = false /\
  PrintLine MsgMaxLossReached <> CallAccountInfo.
Proof.
  apply (X16_nonpositive_limit_never_trades
           {| symbol := "EURUSD"; sl_pips := 5; tp_pips := 10;
              sma_period := 50; rsi_period := 14; risk_percent := 1;
              magic_number := 123456; bars := 100;
              loop_interval_minutes := 5; daily_max_loss := 0;
              daily_loss_reset_hour := 0 |}
           [Sample.world 1 10 (Some Sample.pullback_rates) None]
           (initial_state 1)).
  - apply Qle_refl.
  - apply Qle_refl.
  - vm_compute. left. reflexivity.
Defined.

(** ** The moving average *)

Lemma fsum_fin l : forall acc,
  fold_left fadd (map Fin l) (Fin acc) = Fin (fold_left Qplus l acc).
Proof.
  induction l as [|a l IH]; intro acc; simpl; [reflexivity|]. apply IH.
Qed.

Lemma fold_left_Qplus l : forall acc, fold_left Qplus l acc == acc + Qsum l.
Proof.
  induction l as [|a l IH]; intro acc; simpl; [ring|]. rewrite IH. ring.
Qed.

Lemma mean_fin t n :
  (0 < n)%nat ->
  exists q, fdiv (Fin t) (Fin (inject_Z (Z.of_nat n))) = Fin q /\
            q == t / inject_Z (Z.of_nat n).
Proof.
  intro P. pose proof (inject_nat_pos n P) as N.
  destruct (Qeq_bool t 0) eqn:E.
  - apply Qeq_bool_iff in E. rewrite (mean_zero t n E P).
    exists 0. split; [reflexivity|]. rewrite E. field. lra.
  - apply Qeq_bool_neq in E. rewrite fdiv_fin by lra. eauto with qarith.
Qed.

Lemma last_n_length {A} n (l : list A) :
  (n <= length l)%nat -> length (last_n n l) = n.
Proof. intro L. unfold last_n. rewrite length_skipn. lia. Qed.

Lemma Qsum_bounds lo hi l :
  Forall (fun x => lo <= x <= hi) l ->
  inject_Z (Z.of_nat (length l)) * lo <= Qsum l <=
  inject_Z (Z.of_nat (length l)) * hi.
Proof.
  induction 1 as [|x l H F IH].
  - simpl. unfold inject_Z. lra.
  - change (length (x :: l)) with (S (length l)).
    rewrite Nat2Z.inj_succ. unfold Z.succ. rewrite inject_Z_plus.
    simpl Qsum. change (inject_Z 1) with 1. lra.
Qed.

(** X17: with at least [sma_period >= 1] bars, the SMA of the latest bar
    is the finite value (sum of the last [sma_period] closes) /
    [sma_period]; hence it lies between any two bounds that enclose
    those closes. *)
Theorem X17_sma_is_window_mean n rates :
  (0 < n)%nat -> (n <= length rates)%nat ->
  exists q,
    iloc_last (sma_column n (closes_of rates)) = Some (Fin q) /\
    q == Qsum (last_n n rates) / inject_Z (Z.of_nat n) /\
    forall lo hi,
      Forall (fun x => lo <= x <= hi) (last_n n rates) -> lo <= q <= hi.
Proof.
  intros P L. unfold sma_column.
  rewrite rolling_mean_full by (rewrite ?closes_of_length; assumption).
  rewrite closes_of_length. unfold closes_of. rewrite skipn_map.
  fold (last_n n rates). unfold fsum. rewrite fsum_fin.
  destruct (mean_fin (fold_left Qplus (last_n n rates) 0) n P) as [q [E Q]].
  exists q. split; [now rewrite E|].
  rewrite fold_left_Qplus, Qplus_0_l in Q. split; [exact Q|].
  intros lo hi F. apply Qsum_bounds in F.
  rewrite last_n_length in F by exact L.
  pose proof (inject_nat_pos n P) as N. rewrite Q.
  split; [apply Qle_shift_div_l|apply Qle_shift_div_r]; lra.
Qed.

Lemma X17_sma_is_window_mean_witness :
  exists q,
    iloc_last (sma_column 3 (closes_of [1; 2; 3; 4])) = Some (Fin q) /\
    q == Qsum (last_n 3 [1; 2; 3; 4]) / inject_Z (Z.of_nat 3) /\
    forall lo hi,
      Forall (fun x => lo <= x <= hi) (last_n 3 [1; 2; 3; 4]) -> lo <= q <= hi.
Proof.
  apply (X17_sma_is_window_mean 3 [1; 2; 3; 4]); simpl; lia.
Defined.

(** ** The RSI in closed form *)

Lemma rsi_of_formula g l :
  0 <= g -> 0 < l ->
  exists q, rsi_of (Fin g) (Fin l) = Fin q /\ q == 100 * g / (g + l).
Proof.
  intros G L. unfold rsi_of.
  destruct (Qeq_bool g 0) eqn:Eg.
  - assert (S : Qlt_bool g 0 = false) by (apply Qlt_bool_false_iff; exact G).
    assert (S' : Qlt_bool l 0 = false) by (apply Qlt_bool_false_iff; lra).
    unfold fdiv at 2. unfold is_zero, negative.
    rewrite Eg, S, S', (Qeq_bool_false l) by lra.
    apply Qeq_bool_iff in Eg.
    eexists. split; [vm_compute; reflexivity|].
    rewrite Eg. field. lra.
  - apply Qeq_bool_neq in Eg.
    rewrite (fdiv_fin g l) by lra.
    assert (T : 0 < g / l) by (apply Qlt_shift_div_l; lra).
    unfold fadd at 1.
    rewrite (fdiv_fin 100 (1 + g / l)) by (try discriminate; lra).
    assert (U : 0 < 100 / (1 + g / l)) by (apply Qlt_shift_div_l; lra).
    rewrite fsub_fin_nonzero by lra.
    eexists. split; [reflexivity|]. field. split; lra.
Qed.

(** X18: with at least [rsi_period >= 1] bars the latest average gain is
    a finite [g >= 0] and the latest average loss is either the negative
    zero or a finite [l > 0]; in the second case the RSI of the latest
    bar is 100*g/(g+l), so it is 0 when the window holds no gain. *)
Theorem X18_rsi_closed_form n rates :
  (0 < n)%nat -> (n <= length rates)%nat ->
  exists g loss,
    iloc_last (gain_column n (closes_of rates)) = Some (Fin g) /\ 0 <= g /\
    iloc_last (loss_column n (closes_of rates)) = Some loss /\
    (loss = NegZero \/
     exists l q,
       loss = Fin l /\ 0 < l /\
       iloc_last (rsi_column n (closes_of rates)) = Some (Fin q) /\
       q == 100 * g / (g + l) /\
       (g == 0 -> q == 0)).
Proof.
  intros P L.
  destruct (latest_gain n rates P L) as [g [G Gn]].
  destruct (latest_loss n rates P L) as [m [Lo Mn]].
  exists g, (fneg (Fin m)). split; [exact G|]. split; [exact Gn|].
  split; [exact Lo|].
  pose proof (latest_rsi _ _ _ _ G Lo) as R.
  unfold fneg in *. destruct (Qeq_bool m 0) eqn:E; [now left|right].
  apply Qeq_bool_neq in E.
  destruct (rsi_of_formula g (- m) Gn) as [q [Eq Q]]; [lra|].
  exists (- m), q. split; [reflexivity|]. split; [lra|].
  split; [now rewrite R, Eq|]. split; [exact Q|].
  intro Z. rewrite Q, Z. field. lra.
Qed.

Lemma X18_rsi_closed_form_witness :
  exists g loss,
    iloc_last (gain_column 14 (closes_of Sample.pullback_rates)) = Some (Fin g) /\
    0 <= g /\
    iloc_last (loss_column 14 (closes_of Sample.pullback_rates)) = Some loss /\
    (loss = NegZero \/
     exists l q,
       loss = Fin l /\ 0 < l /\
       iloc_last (rsi_column 14 (closes_of Sample.pullback_rates)) = Some (Fin q) /\
       q == 100 * g / (g + l) /\
       (g == 0 -> q == 0)).
Proof.
  apply (X18_rsi_closed_form 14 Sample.pullback_rates).
  - lia.
  - vm_compute. lia.
Defined.

(** ** The first bars of the indicator columns *)

Lemma nth_rolling_mean n (s : Series) i :
  (i < length s)%nat ->
  nth i (rolling_mean n s) NaN = rolling_mean_at n s i.
Proof.
  intro L. unfold rolling_mean.
  rewrite (nth_indep _ NaN (rolling_mean_at n s 0))
    by (rewrite length_map, length_seq; lia).
  rewrite map_nth, seq_nth by lia. reflexivity.
Qed.

Lemma nth_zip_with f : forall (a b : Series) i,
  length a = length b -> (i < length a)%nat ->
  nth i (zip_with f a b) NaN = f (nth i a NaN) (nth i b NaN).
Proof.
  induction a as [|x a IH]; intros b i E L; [simpl in L; lia|].
  destruct b as [|y b]; [discriminate|].
  destruct i as [|i]; [reflexivity|].
  simpl. apply IH; simpl in *; lia.
Qed.

(** X19: in a frame with more than [i] bars, bar [i] has no SMA while
    fewer than [sma_period] bars end at it, and no RSI while fewer than
    [rsi_period] bars end at it: both columns hold NaN there. *)
Theorem X19_indicator_warm_up n rates i :
  (i < length rates)%nat -> (S i < n)%nat ->
  nth i (sma_column n (closes_of rates)) NaN = NaN /\
  nth i (rsi_column n (closes_of rates)) NaN = NaN.
Proof.
  intros L S.
  assert (W : forall s : Series, (i < length s)%nat ->
                nth i (rolling_mean n s) NaN = NaN).
  { intros s Ls. rewrite nth_rolling_mean by exact Ls.
    unfold rolling_mean_at. apply Nat.ltb_lt in S. now rewrite S. }
  split.
  - apply W. now rewrite closes_of_length.
  - unfold rsi_column. rewrite nth_zip_with.
    + unfold gain_column. rewrite W; [reflexivity|].
      now rewrite where_length, diff_length, closes_of_length.
    + now rewrite gain_column_length, loss_column_length.
    + now rewrite gain_column_length, closes_of_length.
Qed.

Lemma X19_indicator_warm_up_witness :
  nth 12 (sma_column 50 (closes_of Sample.flat_rates)) NaN = NaN /\
  nth 12 (rsi_column 14 (closes_of Sample.flat_rates)) NaN = NaN.
Proof.
  split.
  - apply (X19_indicator_warm_up 50 Sample.flat_rates 12); vm_compute; lia.
  - apply (X19_indicator_warm_up 14 Sample.flat_rates 12); vm_compute; lia.
Defined.

(** ** Rounding and the volume *)

Lemma round_half_even_error x :
  x - (1 # 2) <= inject_Z (round_half_even x) <= x + (1 # 2).
Proof.
  pose proof (Qfloor_le x) as Lo. pose proof (Qlt_floor x) as Hi.
  rewrite inject_Z_plus in Hi. change (inject_Z 1) with 1 in Hi.
  unfold round_half_even.
  destruct (Qlt_bool (x - inject_Z (Qfloor x)) (1 # 2)) eqn:A.
  - apply Qlt_bool_iff in A. lra.
  - apply Qlt_bool_false_iff in A.
    destruct (Qlt_bool (1 # 2) (x - inject_Z (Qfloor x))) eqn:B.
    + rewrite inject_Z_plus. change (inject_Z 1) with 1. lra.
    + apply Qlt_bool_false_iff in B.
      destruct (Z.even (Qfloor x));
        rewrite ?inject_Z_plus; change (inject_Z 1) with 1; lra.
Qed.

Lemma round2_error x : x - (1 # 200) <= round2 x <= x + (1 # 200).
Proof.
  pose proof (round_half_even_error (x * 100)) as E. unfold round2.
  split; [apply Qle_shift_div_l|apply Qle_shift_div_r]; lra.
Qed.

(** X20: a computed lot is a whole number of hundredths, at least one;
    and when the unrounded ratio risk_money / (sl_pips * pip_value) is at
    least 0.005, the lot differs from it by at most 0.005. *)
Theorem X20_lot_is_hundredths rp sl b pv lot :
  lot_size rp sl b pv = Some lot ->
  exists k,
    (1 <= k)%Z /\ lot == inject_Z k / 100 /\
    (1 # 200 <= b * (rp / 100) / (sl * pv) ->
     b * (rp / 100) / (sl * pv) - (1 # 200) <= lot <=
     b * (rp / 100) / (sl * pv) + (1 # 200)).
Proof.
  intro H. apply lot_size_inv in H. destruct H as [_ ->].
  set (ratio := b * (rp / 100) / (sl * pv)).
  pose proof (round2_error ratio) as E.
  assert (X : inject_Z (round_half_even (ratio * 100)) == round2 ratio * 100)
    by (unfold round2; field).
  unfold clamp_lot. destruct (Qlt_bool (round2 ratio) (1 # 100)) eqn:C.
  - apply Qlt_bool_iff in C. exists 1%Z. split; [lia|].
    split; [reflexivity|]. intro R.
    assert (K : (round_half_even (ratio * 100) < 1)%Z).
    { rewrite Zlt_Qlt, X. change (inject_Z 1) with 1. lra. }
    assert (K' : inject_Z (round_half_even (ratio * 100)) <= 0).
    { change 0 with (inject_Z 0). rewrite <- Zle_Qle. lia. }
    rewrite X in K'. lra.
  - apply Qlt_bool_false_iff in C.
    exists (round_half_even (ratio * 100)). split.
    + apply Z.lt_pred_le. rewrite Zlt_Qlt, X.
      change (inject_Z (Z.pred 1)) with 0. lra.
    + split; [unfold round2; reflexivity|]. intros _. exact E.
Qed.

Lemma X20_lot_is_hundredths_witness :
  exists k,
    (1 <= k)%Z /\ 200 # 100 == inject_Z k / 100 /\
    (1 # 200 <= 10000 * (1 / 100) / (5 * 10) ->
     10000 * (1 / 100) / (5 * 10) - (1 # 200) <= 200 # 100 <=
     10000 * (1 / 100) / (5 * 10) + (1 # 200)).
Proof.
  apply (X20_lot_is_hundredths 1 5 10000 10 (200 # 100)).
  vm_compute. reflexivity.
Defined.

(** ** From a signal to the order *)

(** X21: in a pass that got through the gate with an account, rates,
    symbol information, a tick and a lot, a BUY signal sends the BUY
    order and a SELL signal the SELL order, and that order is the only
    one of the pass. *)
Theorem X21_signal_sends_order
        cfg s w balance rates c sma rsi info tick pv lot :
  max_loss_reached cfg (fst (reset_check cfg s w)) = false ->
  account_info w = Some balance ->
  copy_rates_from_pos w = Some rates ->
  iloc_last (closes_of rates) = Some c ->
  iloc_last (sma_column (sma_period cfg) (closes_of rates)) = Some sma ->
  iloc_last (rsi_column (rsi_period cfg) (closes_of rates)) = Some rsi ->
  symbol_info w = Some info -> symbol_info_tick w = Some tick ->
  pip_value info = Some pv ->
  lot_size (risk_percent cfg) (sl_pips cfg) balance pv = Some lot ->
  (should_buy c sma rsi = true ->
   filter is_order_send (snd (iteration cfg s w))
   = [CallOrderSend
        (request cfg lot ORDER_TYPE_BUY (ask tick)
           (ask tick - sl_pips cfg * 10 * point info)
           (ask tick + tp_pips cfg * 10 * point info))]) /\
  (should_sell c sma rsi = true ->
   filter is_order_send (snd (iteration cfg s w))
   = [CallOrderSend
        (request cfg lot ORDER_TYPE_SELL (bid tick)
           (bid tick + sl_pips cfg * 10 * point info)
           (bid tick - tp_pips cfg * 10 * point info))]).
Proof.
  intros G A R C S1 S2 Si Ti P L.
  rewrite (gate_open _ _ _ G). simpl.
  rewrite filter_app, filter_reset_check. simpl.
  unfold trade_step. rewrite A, R, C, S1, S2, Si, Ti, P, L.
  unfold check_and_place_order, place_trade, update_daily_loss.
  split; intro Sg.
  - rewrite Sg. destruct (order_send w _); reflexivity.
  - rewrite (should_sell_not_buy _ _ _ Sg), Sg.
    destruct (order_send w _); reflexivity.
Qed.

Lemma X21_signal_sends_order_witness :
  filter is_order_send
    (snd (iteration config (Sample.state 0 1)
            (Sample.world 1 10 (Some Sample.pullback_rates) None)))
  = [CallOrderSend
       (request config (200 # 100) ORDER_TYPE_BUY (ask Sample.quote)
          (ask Sample.quote - sl_pips config * 10 * point Sample.eurusd)
          (ask Sample.quote + tp_pips config * 10 * point Sample.eurusd))].
Proof.
  eapply (X21_signal_sends_order config (Sample.state 0 1)
            (Sample.world 1 10 (Some Sample.pullback_rates) None)
            10000 Sample.pullback_rates).
  - reflexivity.
  - reflexivity.
  - reflexivity.
  - vm_compute; reflexivity.
  - vm_compute; reflexivity.
  - vm_compute; reflexivity.
  - reflexivity.
  - reflexivity.
  - vm_compute; reflexivity.
  - vm_compute; reflexivity.
  - vm_compute; reflexivity.
Defined.
